(** * Europa core: the HTML to Markdown conversion engine

    A shallow embedding of [Europa.convert] / [Europa.convertElement]
    (and of their older twins [Transformer.transform] /
    [Transformer.transformElement], which differ in the way the registry is
    read only: [this.plugins.get(tagName)] for [plugins[tagName]]) together
    with the plugin protocol the engine drives.

    Conventions.
    - A JavaScript string is a [string]; a character stands for a code unit
      in the range 0..255.
    - A hook of a plugin is a small program ([HookProg]) over the conversion
      it receives: it can read and replace the conversion, raise an error,
      call back into [convertElement] (as [FramePlugin.convert] does) and
      catch what such a call throws.
    - The registry is read for its own entries.  A read of [plugins[name]]
      also finds the members an ordinary object inherits ([inherited]);
      statements on elements without a plugin say so where it matters.
    - The engine keeps a ghost [trace] of the calls it makes and numbers every
      visit of a node ([nextId]); neither is visible to hooks.
    - The depth of the call stack is bounded by [fuel]; exhausting it raises
      [RangeError], as a JavaScript engine does. *)

From Stdlib Require Import String Ascii List ZArith Bool Arith Lia.
Import ListNotations.

#[local] Set Warnings "-register-all".
#[local] Open Scope string_scope.
#[local] Open Scope list_scope.

(* ================================================================= *)
(** ** JavaScript values and string primitives *)

Module JS.

(** The values a [convert] / [transform] hook returns to the engine: a
    hook without a [return] statement yields [undefined]. *)
Inductive Value : Type :=
| undefined
| boolean (b : bool).

(** Truthiness, as used by [if (convertChildren)]. *)
Definition ToBoolean (v : Value) : bool :=
  match v with
  | undefined => false
  | boolean b => b
  end.

(** White space and line terminators of ECMAScript below code unit 256:
    TAB, LF, VT, FF, CR, SP and NBSP. *)
Definition isWhiteSpace (c : ascii) : bool :=
  let n := nat_of_ascii c in
  ((n =? 9) || (n =? 10) || (n =? 11) || (n =? 12) || (n =? 13)
   || (n =? 32) || (n =? 160))%nat.

Definition isEmpty (s : string) : bool :=
  match s with
  | EmptyString => true
  | String _ _ => false
  end.

(** [String.prototype.trim], as its two halves. *)
Fixpoint trimStart (s : string) : string :=
  match s with
  | EmptyString => EmptyString
  | String c s' => if isWhiteSpace c then trimStart s' else s
  end.

Fixpoint trimEnd (s : string) : string :=
  match s with
  | EmptyString => EmptyString
  | String c s' =>
      let r := trimEnd s' in
      if isWhiteSpace c && isEmpty r then EmptyString else String c r
  end.

Definition trim (s : string) : string := trimEnd (trimStart s).

Definition backtick : ascii := "`"%char.
Definition backslash : ascii := "\"%char.

(** [value.replace(/`/g, '\\`')]: every backtick becomes a backslash
    followed by a backtick. *)
Fixpoint escapeBackticks (s : string) : string :=
  match s with
  | EmptyString => EmptyString
  | String c s' =>
      if Ascii.eqb c backtick
      then String backslash (String backtick (escapeBackticks s'))
      else String c (escapeBackticks s')
  end.

(** [a || b] on an operand that is a string or null/undefined. *)
Definition orElse (a : option string) (b : string) : string :=
  match a with
  | None => b
  | Some s => if isEmpty s then b else s
  end.

Definition lowerChar (c : ascii) : ascii :=
  let n := nat_of_ascii c in
  if ((65 <=? n) && (n <=? 90))%nat then ascii_of_nat (n + 32) else c.

(** [String.prototype.toLowerCase] on the letters A-Z, the only ones that
    occur in HTML tag names. *)
Fixpoint toLowerCase (s : string) : string :=
  match s with
  | EmptyString => EmptyString
  | String c s' => String (lowerChar c) (toLowerCase s')
  end.

Definition upperChar (c : ascii) : ascii :=
  let n := nat_of_ascii c in
  if ((97 <=? n) && (n <=? 122))%nat then ascii_of_nat (n - 32) else c.

Fixpoint toUpperCase (s : string) : string :=
  match s with
  | EmptyString => EmptyString
  | String c s' => String (upperChar c) (toUpperCase s')
  end.

(** An object used as a map from property names to values, in property
    order (the order [forOwn] follows). *)
Definition Object (V : Type) : Type := list (string * V).

Fixpoint getProperty {V : Type} (key : string) (obj : Object V) : option V :=
  match obj with
  | [] => None
  | (k, v) :: rest => if String.eqb k key then Some v else getProperty key rest
  end.

(** [obj[key] = v]: an existing property keeps its place, a new one is
    added last. *)
Fixpoint setProperty {V : Type} (key : string) (v : V) (obj : Object V)
  : Object V :=
  match obj with
  | [] => [(key, v)]
  | (k, x) :: rest =>
      if String.eqb k key then (k, v) :: rest
      else (k, x) :: setProperty key v rest
  end.

End JS.

(* ================================================================= *)
(** ** The DOM, as far as the engine looks at it *)

Module DOM.

(** [window.Node.ELEMENT_NODE] and [window.Node.TEXT_NODE]. *)
Definition ELEMENT_NODE : Z := 1.
Definition TEXT_NODE : Z := 3.
Definition COMMENT_NODE : Z := 8.

(** A node with the properties the engine and the plugins read.
    [computedStyle] is what [window.getComputedStyle(node)] answers;
    [contentWindow] is the nested window of a frame, if any. *)
Inductive Node : Type := mkNode {
  nodeType : Z;
  nodeName : string;
  nodeValue : option string;
  computedStyle : JS.Object string;
  childNodes : list Node;
  contentWindow : option Window }
with Window : Type := mkWindow {
  windowName : string;
  body : option Node }.

(** [style.getPropertyValue(name)]: the empty string when not set. *)
Definition getPropertyValue (style : JS.Object string) (name : string)
  : string :=
  match JS.getProperty name style with
  | Some v => v
  | None => EmptyString
  end.

(** [root.innerHTML = html], given the provider's fragment parser. *)
Definition setInnerHTML (parseFragment : string -> list Node)
           (html : string) (root : Node) : Node :=
  {| nodeType := nodeType root;
     nodeName := nodeName root;
     nodeValue := nodeValue root;
     computedStyle := computedStyle root;
     childNodes := parseFragment html;
     contentWindow := contentWindow root |}.

Definition elementNode (name : string) (style : JS.Object string)
           (children : list Node) : Node :=
  mkNode ELEMENT_NODE name None style children None.

Definition textNode (value : string) : Node :=
  mkNode TEXT_NODE "#text" (Some value) [] [] None.

Definition commentNode (value : string) : Node :=
  mkNode COMMENT_NODE "#comment" (Some value) [] [] None.

(** Nesting depth of a tree of child nodes. *)
Fixpoint height (n : Node) : nat :=
  S ((fix heights (l : list Node) : nat :=
        match l with
        | [] => 0
        | c :: cs => Nat.max (height c) (heights cs)
        end) (childNodes n)).

End DOM.

Import DOM.

(* ================================================================= *)
(** ** The conversion (the output state) *)

(** Modelled from the spec: the [Conversion] class ([Transformation] in the
    older sources) is not among the sources; its fields are those the spec
    lists for the output state.  [element] is the node being visited and
    [window] the window of the document it belongs to. *)
Record Conversion : Type := mkConversion {
  buffer : string;
  element : option Node;
  atLeft : bool;
  atNoWhiteSpace : bool;
  atParagraph : bool;
  inCodeBlock : bool;
  inPreformattedBlock : bool;
  left : string;
  window : option Window }.

(** Modelled from the spec: [tagName] is derived, the lower-cased name of the
    current element. *)
Definition tagName (c : Conversion) : string :=
  match element c with
  | Some el => JS.toLowerCase (nodeName el)
  | None => EmptyString
  end.

(** [conversion.element = el]. *)
Definition set_element (el : Node) (c : Conversion) : Conversion :=
  {| buffer := buffer c; element := Some el; atLeft := atLeft c;
     atNoWhiteSpace := atNoWhiteSpace c; atParagraph := atParagraph c;
     inCodeBlock := inCodeBlock c;
     inPreformattedBlock := inPreformattedBlock c;
     left := left c; window := window c |}.

Definition set_window (win : option Window) (c : Conversion) : Conversion :=
  {| buffer := buffer c; element := element c; atLeft := atLeft c;
     atNoWhiteSpace := atNoWhiteSpace c; atParagraph := atParagraph c;
     inCodeBlock := inCodeBlock c;
     inPreformattedBlock := inPreformattedBlock c;
     left := left c; window := win |}.

Definition set_atNoWhiteSpace (b : bool) (c : Conversion) : Conversion :=
  {| buffer := buffer c; element := element c; atLeft := atLeft c;
     atNoWhiteSpace := b; atParagraph := atParagraph c;
     inCodeBlock := inCodeBlock c;
     inPreformattedBlock := inPreformattedBlock c;
     left := left c; window := window c |}.

(** The methods of [Conversion] the engine and the plugins call; their
    bodies are not among the sources, so the engine is stated over any
    implementation of them.
    - [construct] is [new Conversion(europa, options)];
    - [output text clean] is [conversion.output(text, clean)], a missing
      second argument being [false];
    - [append text] is [conversion.append(text)]. *)
Record ConversionMethods : Type := {
  construct : Conversion;
  output : string -> bool -> Conversion -> Conversion;
  append : string -> Conversion -> Conversion }.

(** The DOM provider behind [window.document]. *)
Record DOMProvider : Type := {
  createElement : string -> Node;
  parseFragment : string -> list Node }.

(* ================================================================= *)
(** ** Events, worlds and the engine's monad *)

(** What the engine did, in order.  [id] numbers the visits. *)
Inductive Event : Type :=
| EvInnerHTML (html : string)
| EvBeforeAll (tag : string) (pid : nat)
| EvAfterAll (tag : string) (pid : nat)
| EvVisit (id : nat) (node : Node)
| EvBefore (id pid : nat)
| EvConvert (id pid : nat)
| EvAfter (id pid : nat).

Record World : Type := mkWorld {
  conv : Conversion;
  trace : list Event;
  nextId : nat }.

Inductive Error : Type :=
| Thrown (message : string)
| RangeError.

Inductive Outcome (A : Type) : Type :=
| Ok (a : A)
| Throw (e : Error).
Arguments Ok {A} a.
Arguments Throw {A} e.

Definition M (A : Type) : Type := World -> Outcome A * World.

Definition ret {A : Type} (a : A) : M A := fun w => (Ok a, w).

Definition throw {A : Type} (e : Error) : M A := fun w => (Throw e, w).

Definition bind {A B : Type} (m : M A) (f : A -> M B) : M B :=
  fun w =>
    match m w with
    | (Ok a, w') => f a w'
    | (Throw e, w') => (Throw e, w')
    end.

Notation "x <- m ;; k" := (bind m (fun x => k))
  (at level 61, m at next level, right associativity).
Notation "m ;; k" := (bind m (fun _ => k))
  (at level 61, right associativity).

Definition getConversion : M Conversion := fun w => (Ok (conv w), w).

Definition modify (f : Conversion -> Conversion) : M unit :=
  fun w => (Ok tt, mkWorld (f (conv w)) (trace w) (nextId w)).

Definition log (ev : Event) : M unit :=
  fun w => (Ok tt, mkWorld (conv w) (trace w ++ [ev]) (nextId w)).

(** Entering [convertElement] on a node: the visit gets the next number. *)
Definition enter (node : Node) : M nat :=
  fun w =>
    (Ok (nextId w),
     mkWorld (conv w) (trace w ++ [EvVisit (nextId w) node]) (S (nextId w))).

(* ================================================================= *)
(** ** Plugins *)

(** The values plugins keep in the per-element context. *)
Inductive ContextValue : Type :=
| CtxBoolean (b : bool)
| CtxString (s : string)
| CtxWindow (win : option Window).

(** [context = {}] and its properties. *)
Definition Context : Type := JS.Object ContextValue.

(** The body of a hook: what it does with the conversion it is handed.
    [CallConvertElement n k] is
    [conversion.europa.convertElement(n, conversion)] followed by [k];
    [TryConvertElement n k] is the same call inside [try { } catch (e) { }],
    followed by [k None] when the call returned and by [k (Some e)] when it
    threw [e]. *)
Inductive HookProg (A : Type) : Type :=
| Return (a : A)
| Raise (message : string)
| Get (k : Conversion -> HookProg A)
| Put (c : Conversion) (k : HookProg A)
| CallConvertElement (n : option Node) (k : HookProg A)
| TryConvertElement (n : option Node) (k : option Error -> HookProg A).
Arguments Return {A} a.
Arguments Raise {A} message.
Arguments Get {A} k.
Arguments Put {A} c k.
Arguments CallConvertElement {A} n k.
Arguments TryConvertElement {A} n k.

(** Runs a hook, [visit] being the engine's [convertElement]. *)
Fixpoint runHook {A : Type} (visit : option Node -> M unit) (p : HookProg A)
  : M A :=
  match p with
  | Return a => ret a
  | Raise message => throw (Thrown message)
  | Get k => fun w => runHook visit (k (conv w)) w
  | Put c k => fun w => runHook visit k (mkWorld c (trace w) (nextId w))
  | CallConvertElement n k => visit n ;; runHook visit k
  | TryConvertElement n k =>
      fun w =>
        match visit n w with
        | (Ok _, w') => runHook visit (k None) w'
        | (Throw e, w') => runHook visit (k (Some e)) w'
        end
  end.

Module Plugin.

(** The plugin contract.  [pluginId] stands for the identity of the plugin
    object.  [before] and [convert] hand back the context they were given,
    with whatever they stored in it; [convert] is called [transform] in the
    older sources. *)
Record Plugin : Type := mkPlugin {
  pluginId : nat;
  getTagNames : list string;
  beforeAll : HookProg unit;
  before : Context -> HookProg Context;
  convert : Context -> HookProg (JS.Value * Context);
  after : Context -> HookProg unit;
  afterAll : HookProg unit }.

(** Modelled from the spec: the base class [Plugin] is not among the
    sources, and the spec gives the roles of the hooks only.  Here the
    inherited hooks do nothing and the inherited [convert] returns [true],
    which has the children traversed normally. *)
Definition base (id : nat) (tags : list string) : Plugin :=
  {| pluginId := id;
     getTagNames := tags;
     beforeAll := Return tt;
     before := fun context => Return context;
     convert := fun context => Return (JS.boolean true, context);
     after := fun _ => Return tt;
     afterAll := Return tt |}.

End Plugin.

Abbreviation Plugin := Plugin.Plugin.

(** [pluginManager.plugins]: tag name to plugin. *)
Definition Plugins : Type := JS.Object Plugin.

(** Modelled from the spec: [PluginManager.register] is not among the
    sources; it reads the plugin's tag names and, for each, overwrites any
    existing mapping. *)
Definition register (plugin : Plugin) (plugins : Plugins) : Plugins :=
  fold_left (fun acc tag => JS.setProperty tag plugin acc)
            (Plugin.getTagNames plugin) plugins.

(** Modelled from the spec: [registerPreset] registers the preset's plugins
    in their declared order. *)
Definition registerPreset (preset : list Plugin) (plugins : Plugins)
  : Plugins :=
  fold_left (fun acc plugin => register plugin acc) preset plugins.

(** [Utilities.forOwn(obj, callback)], the callback run on every own property
    in property order. *)
Fixpoint forOwn {V : Type} (obj : JS.Object V) (callback : string -> V -> M unit)
  : M unit :=
  match obj with
  | [] => ret tt
  | (key, value) :: rest => callback key value ;; forOwn rest callback
  end.

(* ================================================================= *)
(** ** The engine *)

(** What [convert] is handed: nothing (null or undefined), a string or an
    element. *)
Inductive Html : Type :=
| HtmlNull
| HtmlString (s : string)
| HtmlElement (el : Node).

(** Truthiness of the argument, as tested by [if (!html)]. *)
Definition truthy (html : Html) : bool :=
  match html with
  | HtmlNull => false
  | HtmlString s => negb (JS.isEmpty s)
  | HtmlElement _ => true
  end.

(** [Transformer._isVisible] ([DOMUtilities.isVisible] in the later
    sources). *)
Definition isVisible (el : Node) : bool :=
  let style := computedStyle el in
  negb (String.eqb (getPropertyValue style "display") "none")
  && negb (String.eqb (getPropertyValue style "visibility") "hidden").

(** [for (i = ...; i < element.childNodes.length; i++)
       this.convertElement(element.childNodes[i], conversion)],
    with [remaining] iterations to go from index [i]. *)
Fixpoint forChildNodes (visit : option Node -> M unit) (nodes : list Node)
         (remaining i : nat) : M unit :=
  match remaining with
  | O => ret tt
  | S k => visit (nth_error nodes i) ;; forChildNodes visit nodes k (S i)
  end.

Definition convertChildNodes (visit : option Node -> M unit)
           (nodes : list Node) : M unit :=
  forChildNodes visit nodes (length nodes) 0.

Section Engine.

Variable methods : ConversionMethods.
Variable provider : DOMProvider.
Variable plugins : Plugins.

(** The text branch of [convertElement]. *)
Definition convertText (el : Node) : M unit :=
  let value := JS.orElse (nodeValue el) EmptyString in
  conversion <- getConversion ;;
  if inPreformattedBlock conversion then
    modify (output methods value false)
  else if inCodeBlock conversion then
    modify (output methods (JS.escapeBackticks value) false)
  else
    modify (output methods value true).

(** [plugin.before(conversion, context);
     convertChildren = plugin.convert(conversion, context)]. *)
Definition callBeforeAndConvert (visit : option Node -> M unit) (id : nat)
           (plugin : Plugin) (context : Context) : M (JS.Value * Context) :=
  log (EvBefore id (Plugin.pluginId plugin)) ;;
  context1 <- runHook visit (Plugin.before plugin context) ;;
  log (EvConvert id (Plugin.pluginId plugin)) ;;
  runHook visit (Plugin.convert plugin context1).

(** [plugin.after(conversion, context)]. *)
Definition callAfter (visit : option Node -> M unit) (id : nat)
           (plugin : Plugin) (context : Context) : M unit :=
  log (EvAfter id (Plugin.pluginId plugin)) ;;
  runHook visit (Plugin.after plugin context).

(** The element branch of [convertElement], for the visit numbered [id];
    [visit] is [this.convertElement].  The registry is read for the entries
    registered in it; the members it inherits ([inherited]) are left out. *)
Definition convertElementNode (visit : option Node -> M unit) (id : nat)
           (el : Node) : M unit :=
  if negb (isVisible el) then ret tt
  else
    modify (set_element el) ;;
    let context : Context := [] in
    conversion <- getConversion ;;
    let plugin := JS.getProperty (tagName conversion) plugins in
    r <- match plugin with
         | Some p => callBeforeAndConvert visit id p context
         | None => ret (JS.boolean true, context)
         end ;;
    let '(convertChildren, context') := r in
    (if JS.ToBoolean convertChildren
     then convertChildNodes visit (childNodes el)
     else ret tt) ;;
    match plugin with
    | Some p => callAfter visit id p context'
    | None => ret tt
    end.

(** The body of [convertElement] on a node that is not null. *)
Definition convertNode (visit : option Node -> M unit) (id : nat) (el : Node)
  : M unit :=
  if (nodeType el =? ELEMENT_NODE)%Z then convertElementNode visit id el
  else if (nodeType el =? TEXT_NODE)%Z then convertText el
  else ret tt.

(** [Europa.convertElement] ([Transformer.transformElement]). *)
Fixpoint convertElement (fuel : nat) (element : option Node) : M unit :=
  match fuel with
  | O => throw RangeError
  | S fuel' =>
      match element with
      | None => ret tt
      | Some el =>
          id <- enter el ;;
          convertNode (convertElement fuel') id el
      end
  end.

Definition callBeforeAll (fuel : nat) (tag : string) (plugin : Plugin)
  : M unit :=
  log (EvBeforeAll tag (Plugin.pluginId plugin)) ;;
  runHook (convertElement fuel) (Plugin.beforeAll plugin).

Definition callAfterAll (fuel : nat) (tag : string) (plugin : Plugin)
  : M unit :=
  log (EvAfterAll tag (Plugin.pluginId plugin)) ;;
  runHook (convertElement fuel) (Plugin.afterAll plugin).

(** The part of [convert] between the creation of the conversion and the
    final [return]: every [beforeAll], the traversal, every [afterAll]. *)
Definition convertRoot (fuel : nat) (root : Node) : M unit :=
  forOwn plugins (callBeforeAll fuel) ;;
  convertElement fuel (Some root) ;;
  forOwn plugins (callAfterAll fuel).

(** The root [convert] traverses and the events of building it. *)
Definition rootOf (html : Html) : option (Node * list Event) :=
  match html with
  | HtmlNull => None
  | HtmlString s =>
      Some (setInnerHTML (parseFragment provider) s
                         (createElement provider "div"),
            [EvInnerHTML s])
  | HtmlElement el => Some (el, [])
  end.

(** The world in which the conversion starts. *)
Definition initialWorld (events : list Event) : World :=
  mkWorld (construct methods) events 0.

(** [return conversion.append('').buffer.trim()], reached when nothing was
    thrown on the way. *)
Definition finish (result : Outcome unit * World)
  : Outcome string * list Event :=
  match result with
  | (Ok _, w) =>
      (Ok (JS.trim (buffer (append methods EmptyString (conv w)))), trace w)
  | (Throw e, w) => (Throw e, trace w)
  end.

(** [Europa.convert] ([Transformer.transform]): the result and the events of
    the call. *)
Definition convert (fuel : nat) (html : Html) : Outcome string * list Event :=
  if negb (truthy html) then (Ok EmptyString, [])
  else
    match rootOf html with
    | None => (Ok EmptyString, [])
    | Some (root, events) => finish (convertRoot fuel root (initialWorld events))
    end.

End Engine.

(* ================================================================= *)
(** ** Plugins of the sources *)

(** A hook statement that replaces the conversion by [f] of it. *)
Definition update {A : Type} (f : Conversion -> Conversion) (k : HookProg A)
  : HookProg A :=
  Get (fun c => Put (f c) k).

(** [StrongPlugin]: [before], [beforeAll] and [afterAll] are inherited. *)
Definition StrongPlugin (methods : ConversionMethods) (id : nat) : Plugin :=
  {| Plugin.pluginId := id;
     Plugin.getTagNames := ["b"; "strong"];
     Plugin.beforeAll := Return tt;
     Plugin.before := fun context => Return context;
     Plugin.convert := fun context =>
       update (output methods "**" false)
         (update (set_atNoWhiteSpace true)
            (Return (JS.boolean true, context)));
     Plugin.after := fun _ =>
       update (output methods "**" false) (Return tt);
     Plugin.afterAll := Return tt |}.

(** [context.previousWindow], [undefined] read as no window. *)
Definition previousWindow (context : Context) : option Window :=
  match JS.getProperty "previousWindow" context with
  | Some (CtxWindow win) => win
  | _ => None
  end.

(** [FramePlugin]: its [convert] converts the body of the nested document
    itself and keeps the engine from the frame's own children. *)
Definition FramePlugin (id : nat) : Plugin :=
  {| Plugin.pluginId := id;
     Plugin.getTagNames := ["frame"; "iframe"];
     Plugin.beforeAll := Return tt;
     Plugin.before := fun context =>
       Get (fun c =>
         Return (JS.setProperty "previousWindow" (CtxWindow (window c))
                                context));
     Plugin.convert := fun context =>
       Get (fun c =>
         match element c with
         | None => Raise "TypeError"
         | Some el =>
             match contentWindow el with
             | Some win =>
                 Put (set_window (Some win) c)
                   (CallConvertElement (body win)
                      (Return (JS.boolean false, context)))
             | None => Return (JS.boolean false, context)
             end
         end);
     Plugin.after := fun context =>
       update (set_window (previousWindow context)) (Return tt);
     Plugin.afterAll := Return tt |}.

(** A plugin whose [convert] has no [return] statement, as the [transform]
    of [PreformattedPlugin] and of [EmptyPlugin]. *)
Definition NoReturnPlugin (id : nat) (tags : list string) : Plugin :=
  {| Plugin.pluginId := id;
     Plugin.getTagNames := tags;
     Plugin.beforeAll := Return tt;
     Plugin.before := fun context => Return context;
     Plugin.convert := fun context => Return (JS.undefined, context);
     Plugin.after := fun _ => Return tt;
     Plugin.afterAll := Return tt |}.

(** A plugin whose [convert] throws. *)
Definition ThrowingPlugin (id : nat) (tags : list string) : Plugin :=
  {| Plugin.pluginId := id;
     Plugin.getTagNames := tags;
     Plugin.beforeAll := Return tt;
     Plugin.before := fun context => Return context;
     Plugin.convert := fun _ => Raise "Error";
     Plugin.after := fun _ => Return tt;
     Plugin.afterAll := Return tt |}.

(* ================================================================= *)
(** ** A conversion and a provider to run the engine on *)

Module Simple.

(** Runs of white space become one space. *)
Fixpoint collapse (s : string) : string :=
  match s with
  | EmptyString => EmptyString
  | String c s' =>
      if JS.isWhiteSpace c then
        match s' with
        | EmptyString => String " "%char EmptyString
        | String c' _ =>
            if JS.isWhiteSpace c' then collapse s'
            else String " "%char (collapse s')
        end
      else String c (collapse s')
  end.

Definition write (text : string) (c : Conversion) : Conversion :=
  if JS.isEmpty text then c
  else
    {| buffer := (buffer c ++ text)%string; element := element c; atLeft := false;
       atNoWhiteSpace := false; atParagraph := atParagraph c;
       inCodeBlock := inCodeBlock c;
       inPreformattedBlock := inPreformattedBlock c;
       left := left c; window := window c |}.

(** Modelled from the spec: [write(text, collapsible)] of the output state,
    the body of [Conversion.output] not being among the sources.  A
    collapsible text has its runs of white space collapsed and, at the left
    of a line, its leading white space dropped; a raw text is emitted as it
    is; a non-empty write clears [atLeft] and [atNoWhiteSpace]. *)
Definition output (text : string) (clean : bool) (c : Conversion)
  : Conversion :=
  if clean then
    let collapsed := collapse text in
    write (if atLeft c then JS.trimStart collapsed else collapsed) c
  else write text c.

(** Modelled from the spec: [Conversion.append] is not among the sources;
    the buffer only grows by what is appended. *)
Definition append (text : string) (c : Conversion) : Conversion :=
  {| buffer := (buffer c ++ text)%string; element := element c; atLeft := atLeft c;
     atNoWhiteSpace := atNoWhiteSpace c; atParagraph := atParagraph c;
     inCodeBlock := inCodeBlock c;
     inPreformattedBlock := inPreformattedBlock c;
     left := left c; window := window c |}.

Definition construct : Conversion :=
  mkConversion EmptyString None true false false false false EmptyString None.

Definition methods : ConversionMethods :=
  Build_ConversionMethods construct output append.

(** Modelled from the spec: the DOM provider is an external collaborator.
    This one makes elements without children and parses markup-free text,
    which is a single text node. *)
Definition provider : DOMProvider :=
  {| createElement := fun name => elementNode (JS.toUpperCase name) [] [];
     parseFragment := fun html => [textNode html] |}.

End Simple.

(* ================================================================= *)
(** ** Vocabulary of the statements *)

(** The children one after the other, in the order of the list. *)
Fixpoint visitInOrder (visit : option Node -> M unit) (nodes : list Node)
  : M unit :=
  match nodes with
  | [] => ret tt
  | child :: rest => visit (Some child) ;; visitInOrder visit rest
  end.

(** Every backtick replaced by a backslash and a backtick, character by
    character. *)
Definition escapeChar (c : ascii) : string :=
  if Ascii.eqb c JS.backtick
  then String JS.backslash (String JS.backtick EmptyString)
  else String c EmptyString.

Definition isBeforeAll (pid : nat) (ev : Event) : bool :=
  match ev with
  | EvBeforeAll _ p => Nat.eqb p pid
  | _ => false
  end.

Definition isAfterAll (pid : nat) (ev : Event) : bool :=
  match ev with
  | EvAfterAll _ p => Nat.eqb p pid
  | _ => false
  end.

(** The events of visit [id]: its [before] and its [after]. *)
Definition isBefore (id : nat) (ev : Event) : bool :=
  match ev with
  | EvBefore i _ => Nat.eqb i id
  | _ => false
  end.

Definition isAfter (id : nat) (ev : Event) : bool :=
  match ev with
  | EvAfter i _ => Nat.eqb i id
  | _ => false
  end.


Definition count (f : Event -> bool) (events : list Event) : nat :=
  length (filter f events).

(** The number of tag names under which the plugin [pid] is registered. *)
Definition entriesOf (pid : nat) (plugins : Plugins) : nat :=
  length (filter (fun entry => Nat.eqb (Plugin.pluginId (snd entry)) pid)
                 plugins).

(** An event of a visit numbered from [lo] up to, not including, [hi]. *)
Definition visitEvent (lo hi : nat) (ev : Event) : Prop :=
  match ev with
  | EvVisit id _ | EvBefore id _ | EvConvert id _ | EvAfter id _ =>
      lo <= id < hi
  | _ => False
  end.

(** A computation that only adds events of visits it numbers itself. *)
Definition fresh {A : Type} (m : M A) : Prop :=
  forall w o w',
    m w = (o, w') ->
    exists events,
      trace w' = trace w ++ events
      /\ nextId w <= nextId w'
      /\ Forall (visitEvent (nextId w) (nextId w')) events.

(** A hook that neither throws nor calls back into the engine. *)
Inductive quiet {A : Type} : HookProg A -> Prop :=
| quiet_Return : forall a, quiet (Return a)
| quiet_Get : forall k, (forall c, quiet (k c)) -> quiet (Get k)
| quiet_Put : forall c k, quiet k -> quiet (Put c k).

Definition quietPlugin (p : Plugin) : Prop :=
  quiet (Plugin.beforeAll p)
  /\ (forall context, quiet (Plugin.before p context))
  /\ (forall context, quiet (Plugin.convert p context))
  /\ (forall context, quiet (Plugin.after p context))
  /\ quiet (Plugin.afterAll p).

Definition quietPlugins (plugins : Plugins) : Prop :=
  Forall (fun entry => quietPlugin (snd entry)) plugins.

(** The element is one the engine looks a plugin up for, and finds [p]. *)
Definition matched (plugins : Plugins) (el : Node) (p : Plugin) : Prop :=
  nodeType el = ELEMENT_NODE
  /\ isVisible el = true
  /\ JS.getProperty (JS.toLowerCase (nodeName el)) plugins = Some p.

(** How a text is written under the mode of the conversion. *)
Definition writeText (methods : ConversionMethods) (value : string)
           (c : Conversion) : Conversion :=
  if inPreformattedBlock c then output methods value false c
  else if inCodeBlock c then output methods (JS.escapeBackticks value) false c
  else output methods value true c.

(** The world after a visit that did nothing but be counted. *)
Definition visited (el : Node) (w : World) : World :=
  mkWorld (conv w) (trace w ++ [EvVisit (nextId w) el]) (S (nextId w)).

(** The same once visit [lo] has begun: its own events are allowed too. *)
Definition freshFrom {A : Type} (lo : nat) (m : M A) : Prop :=
  forall w o w',
    lo < nextId w ->
    m w = (o, w') ->
    exists events,
      trace w' = trace w ++ events
      /\ nextId w <= nextId w'
      /\ Forall (visitEvent lo (nextId w')) events.

Definition startsWithWhiteSpace (s : string) : bool :=
  match s with
  | EmptyString => false
  | String c _ => JS.isWhiteSpace c
  end.

Fixpoint endsWithWhiteSpace (s : string) : bool :=
  match s with
  | EmptyString => false
  | String c EmptyString => JS.isWhiteSpace c
  | String _ s' => endsWithWhiteSpace s'
  end.

Fixpoint allWhiteSpace (s : string) : bool :=
  match s with
  | EmptyString => true
  | String c s' => JS.isWhiteSpace c && allWhiteSpace s'
  end.

(** The world in which the hooks of an element start: the element is the
    current one and its visit has been counted. *)
Definition entered (el : Node) (w : World) : World :=
  mkWorld (set_element el (conv w)) (trace w ++ [EvVisit (nextId w) el])
          (S (nextId w)).

(** A computation that completes without an error in every world. *)
Definition succeeds {A : Type} (m : M A) : Prop :=
  forall w, exists a w', m w = (Ok a, w').

(** Two runs that end alike: same outcome, same conversion.  Events and visit
    numbers are left out of the comparison. *)
Definition agree {A : Type} (r1 r2 : Outcome A * World) : Prop :=
  fst r1 = fst r2 /\ conv (snd r1) = conv (snd r2).

(** Two computations that end alike whenever they start from the same
    conversion. *)
Definition similar {A : Type} (m1 m2 : M A) : Prop :=
  forall w1 w2, conv w1 = conv w2 -> agree (m1 w1) (m2 w2).

(* ================================================================= *)
(** ** Sample registries and documents *)

Module Sample.

Definition start : World := initialWorld Simple.methods [].

(** [<p>Hello <b>World</b></p>] and the registry that holds [StrongPlugin]
    alone. *)
Definition strong : Plugin := StrongPlugin Simple.methods 1.
Definition strongOnly : Plugins := register strong [].
Definition paragraph : Node :=
  elementNode "P" [] [textNode "Hello "; elementNode "B" [] [textNode "World"]].

(** [<div><span></span></div>], a plugin without effect for [div] and one
    whose [convert] throws for [span]. *)
Definition outer : Plugin := Plugin.base 1 ["div"].
Definition failing : Plugin := ThrowingPlugin 2 ["span"].
Definition divAndSpan : Plugins := register failing (register outer []).
Definition divWithSpan : Node :=
  elementNode "DIV" [] [elementNode "SPAN" [] []].

(** [<pre>code</pre>] and a plugin for [pre] whose [convert] returns
    nothing. *)
Definition pre : Plugin := NoReturnPlugin 1 ["pre"].
Definition preOnly : Plugins := register pre [].

(** [<div style="display: none">secret</div>], a comment and a text node
    without a value. *)
Definition hidden : Node :=
  elementNode "DIV" [("display", "none")] [textNode "secret"].
Definition remark : Node := commentNode "note".
Definition nullText : Node := mkNode TEXT_NODE "#text" None [] [] None.

(** A text with a backtick, and a world whose conversion is in a code
    block. *)
Definition ticked : Node := textNode "a`b".
Definition inCode : World :=
  mkWorld (mkConversion EmptyString None false false false true false
                        EmptyString None)
          [] 0.

(** [<iframe>fallback</iframe>] whose document is [<body>inside</body>], and
    the registry that holds [FramePlugin] alone. *)
Definition frames : Plugins := register (FramePlugin 3) [].
Definition inner : Window :=
  mkWindow "inner" (Some (elementNode "BODY" [] [textNode "inside"])).
Definition iframe : Node :=
  mkNode ELEMENT_NODE "IFRAME" None [] [textNode "fallback"] (Some inner).

End Sample.

(* ================================================================= *)
(** ** Vocabulary of the further properties *)

(** The nodes [convertElement] is called on below and including [n], in the
    order of the calls, when no plugin takes part: the node itself and, for
    a visible element, what its children give, one child after the other. *)
Fixpoint visitedNodes (n : Node) : list Node :=
  n :: (if (nodeType n =? ELEMENT_NODE)%Z && isVisible n
        then (fix children (l : list Node) : list Node :=
                match l with
                | [] => []
                | c :: cs => visitedNodes c ++ children cs
                end) (childNodes n)
        else []).

Definition visitedAll (nodes : list Node) : list Node :=
  flat_map visitedNodes nodes.

(** The visits of [nodes], numbered from [start]. *)
Fixpoint numbered (start : nat) (nodes : list Node) : list Event :=
  match nodes with
  | [] => []
  | n :: rest => EvVisit start n :: numbered (S start) rest
  end.

(** What the visit of one node does to the conversion when no plugin takes
    part, its children left aside. *)
Definition applyNode (methods : ConversionMethods) (c : Conversion) (n : Node)
  : Conversion :=
  if (nodeType n =? ELEMENT_NODE)%Z then
    if isVisible n then set_element n c else c
  else if (nodeType n =? TEXT_NODE)%Z then
    writeText methods (JS.orElse (nodeValue n) EmptyString) c
  else c.

(** The world after the visits of [nodes] in that order. *)
Definition traversed (methods : ConversionMethods) (nodes : list Node)
           (w : World) : World :=
  mkWorld (fold_left (applyNode methods) nodes (conv w))
          (trace w ++ numbered (nextId w) nodes)
          (length nodes + nextId w).

(** The names of the members an ordinary object inherits from
    [Object.prototype].  A read of [plugins[name]] finds them though nothing
    was registered under them, and what it finds is no plugin. *)
Definition objectPrototype : list string :=
  ["constructor"; "__proto__"; "hasOwnProperty"; "isPrototypeOf";
   "propertyIsEnumerable"; "toLocaleString"; "toString"; "valueOf";
   "__defineGetter__"; "__defineSetter__"; "__lookupGetter__";
   "__lookupSetter__"].

Definition inherited (name : string) : bool :=
  existsb (String.eqb name) objectPrototype.

(** The read of the registry finds nothing for the element: no plugin is
    registered for its tag, and its tag is not the name of an inherited
    member. *)
Definition unmatched (plugins : Plugins) (n : Node) : Prop :=
  nodeType n = ELEMENT_NODE ->
  JS.getProperty (JS.toLowerCase (nodeName n)) plugins = None
  /\ inherited (JS.toLowerCase (nodeName n)) = false.

(** A hook that lets the errors of the calls it makes go through: it has no
    [try] around a call of [convertElement]. *)
Inductive propagates {A : Type} : HookProg A -> Prop :=
| propagates_Return : forall a, propagates (Return a)
| propagates_Raise : forall message, propagates (Raise message)
| propagates_Get : forall k, (forall c, propagates (k c)) -> propagates (Get k)
| propagates_Put : forall c k, propagates k -> propagates (Put c k)
| propagates_Call :
    forall n k, propagates k -> propagates (CallConvertElement n k).

Definition propagatingPlugin (p : Plugin) : Prop :=
  propagates (Plugin.beforeAll p)
  /\ (forall context, propagates (Plugin.before p context))
  /\ (forall context, propagates (Plugin.convert p context))
  /\ (forall context, propagates (Plugin.after p context))
  /\ propagates (Plugin.afterAll p).

Definition propagatingPlugins (plugins : Plugins) : Prop :=
  Forall (fun entry => propagatingPlugin (snd entry)) plugins.

(** A plugin whose [convert] converts the first child of its element itself,
    inside [try { } catch (e) { }], and keeps the engine from the children. *)
Definition CatchingPlugin (id : nat) (tags : list string) : Plugin :=
  {| Plugin.pluginId := id;
     Plugin.getTagNames := tags;
     Plugin.beforeAll := Return tt;
     Plugin.before := fun context => Return context;
     Plugin.convert := fun context =>
       Get (fun c =>
         match element c with
         | Some el =>
             TryConvertElement (nth_error (childNodes el) 0)
               (fun _ => Return (JS.boolean false, context))
         | None => Return (JS.boolean false, context)
         end);
     Plugin.after := fun _ => Return tt;
     Plugin.afterAll := Return tt |}.

(** The registry with [CatchingPlugin] for [div] and [ThrowingPlugin] for
    [span]. *)
Definition catchingAndThrowing : Plugins :=
  register (ThrowingPlugin 2 ["span"]) (register (CatchingPlugin 1 ["div"]) []).

(** The calls of [before] still waiting for their [after] once [events] have
    happened, innermost first, [stack] being those waiting at the start.
    [None] when an [after] comes that is not the one of the innermost waiting
    [before]. *)
Fixpoint openCalls (stack : list (nat * nat)) (events : list Event)
  : option (list (nat * nat)) :=
  match events with
  | [] => Some stack
  | EvBefore id pid :: rest => openCalls ((id, pid) :: stack) rest
  | EvAfter id pid :: rest =>
      match stack with
      | (id', pid') :: stack' =>
          if Nat.eqb id id' && Nat.eqb pid pid' then openCalls stack' rest
          else None
      | [] => None
      end
  | _ :: rest => openCalls stack rest
  end.

(** A computation that starts with the calls [pre] waiting and, when it
    completes, leaves the calls [post] waiting; when it throws, whatever it
    opened is left waiting on top of what it did not touch. *)
Definition nests {A : Type} (pre post : list (nat * nat)) (m : M A) : Prop :=
  forall stack w o w',
    m w = (o, w') ->
    exists events extra,
      trace w' = trace w ++ events
      /\ openCalls (pre ++ stack) events = Some (extra ++ stack)
      /\ (forall a, o = Ok a -> extra = post).

(** The inverse of [JS.escapeBackticks]: a backslash followed by a backtick
    becomes the backtick. *)
Fixpoint unescapeBackticks (s : string) : string :=
  match s with
  | EmptyString => EmptyString
  | String c rest =>
      match rest with
      | String d rest' =>
          if Ascii.eqb c JS.backslash && Ascii.eqb d JS.backtick
          then String JS.backtick (unescapeBackticks rest')
          else String c (unescapeBackticks rest)
      | EmptyString => String c EmptyString
      end
  end.

(** Every backtick of [s] comes right after a backslash, [afterBackslash]
    telling whether [s] itself does. *)
Fixpoint backticksGuarded (afterBackslash : bool) (s : string) : bool :=
  match s with
  | EmptyString => true
  | String c rest =>
      if Ascii.eqb c JS.backtick
      then afterBackslash && backticksGuarded false rest
      else backticksGuarded (Ascii.eqb c JS.backslash) rest
  end.

Fixpoint countBackticks (s : string) : nat :=
  match s with
  | EmptyString => 0
  | String c rest =>
      (if Ascii.eqb c JS.backtick then 1 else 0) + countBackticks rest
  end.

(* ================================================================= *)
(** ** The window of a Europa instance *)

Module Lifecycle.

(** What an instance asks of the window service: [getWindow()],
    [closeWindow(win)] and [getBaseUri(win)]. *)
Inductive ServiceCall : Type :=
| GetWindow
| CloseWindow (win : Window)
| GetBaseUri (win : Window).

Definition isGetWindow (call : ServiceCall) : bool :=
  match call with
  | GetWindow => true
  | _ => false
  end.

Definition isCloseWindow (call : ServiceCall) : bool :=
  match call with
  | CloseWindow _ => true
  | _ => false
  end.

(** The window service, an external collaborator: [getWindow n] is the
    window its call number [n] answers, and [documentOf] gives the provider
    behind the [document] of a window. *)
Record WindowService : Type := {
  getWindow : nat -> Window;
  documentOf : Window -> DOMProvider }.

(** A Europa instance, with the calls made to the service so far:
    [_window] is [None] for [null]. *)
Record Instance : Type := mkInstance {
  _window : option Window;
  calls : list ServiceCall }.

(** [new Europa()], an instance made without options. *)
Definition create : Instance := mkInstance None [].

(** The getter of [window]. *)
Definition window (service : WindowService) (europa : Instance)
  : Window * Instance :=
  match _window europa with
  | Some win => (win, europa)
  | None =>
      let win :=
        getWindow service (length (filter isGetWindow (calls europa))) in
      (win, mkInstance (Some win) (calls europa ++ [GetWindow]))
  end.

(** The getter of [document], as the provider behind it. *)
Definition document (service : WindowService) (europa : Instance)
  : DOMProvider * Instance :=
  let '(win, europa') := window service europa in
  (documentOf service win, europa').

(** [Europa.destroy]. *)
Definition destroy (europa : Instance) : Instance :=
  match _window europa with
  | Some win => mkInstance None (calls europa ++ [CloseWindow win])
  | None => europa
  end.

(** Modelled from the spec: [OptionParser] is not among the sources.  An
    option that is not given takes its default, and the default [convert]
    declares for [baseUri] is the answer of the window service to
    [getBaseUri(window)]: parsing the options of an instance made without
    options asks the service for it.  The options parsed go into the new
    conversion, for which [construct] stands. *)
Definition parseOptions (win : Window) (europa : Instance) : Instance :=
  mkInstance (_window europa) (calls europa ++ [GetBaseUri win]).

(** [Europa.convert] on an instance: once the argument has been found
    truthy the window is read, the options are parsed, and the root is made
    by the document of the window. *)
Definition convert (service : WindowService) (methods : ConversionMethods)
           (plugins : Plugins) (fuel : nat) (html : Html) (europa : Instance)
  : (Outcome string * list Event) * Instance :=
  if negb (truthy html) then ((Ok EmptyString, []), europa)
  else
    let '(win, europa') := window service europa in
    (convert methods (documentOf service win) plugins fuel html,
     parseOptions win europa').

(** What a caller does with an instance, and an instance after a series of
    such uses. *)
Inductive Use : Type :=
| UseWindow
| UseDocument
| UseDestroy
| UseConvert (fuel : nat) (html : Html).

Definition use (service : WindowService) (methods : ConversionMethods)
           (plugins : Plugins) (europa : Instance) (u : Use) : Instance :=
  match u with
  | UseWindow => snd (window service europa)
  | UseDocument => snd (document service europa)
  | UseDestroy => destroy europa
  | UseConvert fuel html => snd (convert service methods plugins fuel html europa)
  end.

(** The windows obtained and not closed. *)
Definition openWindows (europa : Instance) : nat :=
  length (filter isGetWindow (calls europa))
  - length (filter isCloseWindow (calls europa)).

End Lifecycle.

(* ================================================================= *)
(** ** The plugins written for a Map context *)

Module ES6.

(** [PreformattedPlugin] and [EmptyPlugin] take the per-element context as a
    Map: [context.set(key, value)] and [context.get(key)], the latter
    answering [undefined], here [None], for a key that was never set. *)
Definition get (key : string) (context : Context) : option ContextValue :=
  JS.getProperty key context.

Definition set (key : string) (value : ContextValue) (context : Context)
  : Context :=
  JS.setProperty key value context.

(** The transformation these plugins are handed: the output state and the
    [skipChildren] flag [EmptyPlugin] drives. *)
Record Transformation : Type := mkTransformation {
  state : Conversion;
  skipChildren : bool }.

(** The state with the four fields [PreformattedPlugin.after] assigns. *)
Definition restore (atLeft' atParagraph' inPreformattedBlock' : bool)
           (left' : string) (c : Conversion) : Conversion :=
  {| buffer := buffer c; element := element c; atLeft := atLeft';
     atNoWhiteSpace := atNoWhiteSpace c; atParagraph := atParagraph';
     inCodeBlock := inCodeBlock c;
     inPreformattedBlock := inPreformattedBlock';
     left := left'; window := window c |}.

Section Preformatted.

(** [transformation.append] and [transformation.appendParagraph], whose
    bodies are not among the sources. *)
Variable append : string -> Conversion -> Conversion.
Variable appendParagraph : Conversion -> Conversion.

(** [PreformattedPlugin.before]. *)
Definition preformattedBefore (c : Conversion) (context : Context) : Context :=
  set "previousLeft" (CtxString (left c))
      (set "previousInPreformattedBlock" (CtxBoolean (inPreformattedBlock c))
           context).

(** [PreformattedPlugin.transform]; it returns nothing. *)
Definition preformattedTransform (c : Conversion) : Conversion :=
  let value := "    " in
  let c' := restore (atLeft c) (atParagraph c) (inPreformattedBlock c)
                    (left c ++ value)%string c in
  if atParagraph c' then append value c' else appendParagraph c'.

(** [PreformattedPlugin.after]; [None] when the context does not hold what
    [before] stores, the fields then being assigned [undefined]. *)
Definition preformattedAfter (c : Conversion) (context : Context)
  : option Conversion :=
  match get "previousInPreformattedBlock" context,
        get "previousLeft" context with
  | Some (CtxBoolean previousInPreformattedBlock),
    Some (CtxString previousLeft) =>
      Some (appendParagraph
              (restore false false previousInPreformattedBlock previousLeft c))
  | _, _ => None
  end.

End Preformatted.

(** [EmptyPlugin.before]. *)
Definition emptyBefore (t : Transformation) (context : Context) : Context :=
  set "previousSkipChildren" (CtxBoolean (skipChildren t)) context.

(** [EmptyPlugin.transform]; it returns nothing. *)
Definition emptyTransform (t : Transformation) : Transformation :=
  mkTransformation (state t) true.

(** [EmptyPlugin.after]; [None] when the context does not hold what [before]
    stores, the flag then being assigned [undefined]. *)
Definition emptyAfter (t : Transformation) (context : Context)
  : option Transformation :=
  match get "previousSkipChildren" context with
  | Some (CtxBoolean previousSkipChildren) =>
      Some (mkTransformation (state t) previousSkipChildren)
  | _ => None
  end.

End ES6.

(* ================================================================= *)
(** * Properties *)

(** ** The monad *)

Lemma bind_Ok {A B : Type} (m : M A) (f : A -> M B) (w w' : World) (b : B) :
  bind m f w = (Ok b, w') ->
  exists a w1, m w = (Ok a, w1) /\ f a w1 = (Ok b, w').
Proof.
  unfold bind. destruct (m w) as [[a | e] w1]; intros H.
  - exists a, w1. split; [reflexivity | exact H].
  - discriminate H.
Qed.

Lemma bind_inv {A B : Type} (m : M A) (f : A -> M B) (w w' : World)
      (o : Outcome B) :
  bind m f w = (o, w') ->
  (exists a w1, m w = (Ok a, w1) /\ f a w1 = (o, w'))
  \/ (exists e, m w = (Throw e, w') /\ o = Throw e).
Proof.
  unfold bind. destruct (m w) as [[a | e] w1]; intros H.
  - left. exists a, w1. split; [reflexivity | exact H].
  - right. exists e. inversion H; subst. split; reflexivity.
Qed.

Lemma bind_step {A B : Type} (m : M A) (f : A -> M B) (w w1 : World) (a : A) :
  m w = (Ok a, w1) -> bind m f w = f a w1.
Proof. unfold bind. intros ->. reflexivity. Qed.


(** ** Strings *)

Lemma isVisible_false (el : Node) :
  getPropertyValue (computedStyle el) "display" = "none"
  \/ getPropertyValue (computedStyle el) "visibility" = "hidden" ->
  isVisible el = false.
Proof.
  unfold isVisible. intros [H | H]; rewrite H; simpl.
  - reflexivity.
  - apply andb_false_r.
Qed.

Lemma isVisible_true (el : Node) :
  isVisible el = true ->
  getPropertyValue (computedStyle el) "display" <> "none"
  /\ getPropertyValue (computedStyle el) "visibility" <> "hidden".
Proof.
  unfold isVisible. intros H. apply andb_true_iff in H as [H1 H2].
  apply negb_true_iff in H1, H2.
  split; intros E; rewrite E in *; simpl in *; discriminate.
Qed.

Lemma concat_escapeChar (c : ascii) (l : list string) :
  String.concat EmptyString (escapeChar c :: l)
  = (escapeChar c ++ String.concat EmptyString l)%string.
Proof.
  destruct l as [| x l]; simpl.
  - unfold escapeChar. destruct (Ascii.eqb c JS.backtick); reflexivity.
  - reflexivity.
Qed.

Lemma escapeBackticks_chars (s : string) :
  JS.escapeBackticks s
  = String.concat EmptyString (map escapeChar (list_ascii_of_string s)).
Proof.
  induction s as [| c s IH].
  - reflexivity.
  - cbn [JS.escapeBackticks list_ascii_of_string map].
    rewrite concat_escapeChar, <- IH. unfold escapeChar.
    destruct (Ascii.eqb c JS.backtick); reflexivity.
Qed.

Lemma escapeBackticks_app (s t : string) :
  JS.escapeBackticks (s ++ t)
  = (JS.escapeBackticks s ++ JS.escapeBackticks t)%string.
Proof.
  induction s as [| c s IH]; simpl.
  - reflexivity.
  - rewrite IH. destruct (Ascii.eqb c JS.backtick); reflexivity.
Qed.

(** ** Nodes that are skipped and text nodes *)

Section Visits.

Variable methods : ConversionMethods.
Variable plugins : Plugins.

Lemma convertElement_null (fuel : nat) (w : World) :
  convertElement methods plugins (S fuel) None w = (Ok tt, w).
Proof. reflexivity. Qed.

Lemma convertElement_no_stack (element : option Node) (w : World) :
  convertElement methods plugins 0 element w = (Throw RangeError, w).
Proof. reflexivity. Qed.

Lemma convertText_writes (el : Node) (w : World) :
  convertText methods el w
  = (Ok tt,
     mkWorld (writeText methods (JS.orElse (nodeValue el) EmptyString) (conv w))
             (trace w) (nextId w)).
Proof.
  unfold convertText, writeText, bind, getConversion, modify. simpl.
  destruct (inPreformattedBlock (conv w)); [reflexivity |].
  destruct (inCodeBlock (conv w)); reflexivity.
Qed.

(** C4. An element whose computed [display] is [none] or whose computed
    [visibility] is [hidden] ends the visit at once: the conversion is left as
    it was (nothing is written, not even the current element changes), and
    the only event is the visit itself, so that no hook has run and no child
    has been visited, whatever the children are. *)
Theorem invisible_element_skipped (fuel : nat) (el : Node) (w : World) :
  nodeType el = ELEMENT_NODE ->
  getPropertyValue (computedStyle el) "display" = "none"
  \/ getPropertyValue (computedStyle el) "visibility" = "hidden" ->
  convertElement methods plugins (S fuel) (Some el) w = (Ok tt, visited el w)
  /\ conv (visited el w) = conv w
  /\ trace (visited el w) = trace w ++ [EvVisit (nextId w) el].
Proof.
  intros Htype Hstyle. split; [| split; reflexivity].
  apply isVisible_false in Hstyle.
  simpl. unfold bind, enter, convertNode, convertElementNode.
  rewrite Htype, Hstyle. reflexivity.
Qed.

(** C5. A text node is written according to the mode of the conversion: in a
    preformatted block its value goes to [output] as it is, without the
    clean flag; else in a code block it goes to [output] without the clean
    flag after every backtick has been replaced by a backslash and a
    backtick; else it goes to [output] with the clean flag, that is
    collapsibly. *)
Theorem text_node_written_by_mode (fuel : nat) (el : Node) (w : World) :
  nodeType el = TEXT_NODE ->
  let value := JS.orElse (nodeValue el) EmptyString in
  let c := conv w in
  convertElement methods plugins (S fuel) (Some el) w
  = (Ok tt,
     mkWorld (if inPreformattedBlock c then output methods value false c
              else if inCodeBlock c
                   then output methods (JS.escapeBackticks value) false c
                   else output methods value true c)
             (trace w ++ [EvVisit (nextId w) el]) (S (nextId w)))
  /\ JS.escapeBackticks value
     = String.concat EmptyString (map escapeChar (list_ascii_of_string value)).
Proof.
  intros Htype value c. split; [| apply escapeBackticks_chars].
  simpl. unfold bind, enter, convertNode. rewrite Htype. simpl.
  rewrite convertText_writes. reflexivity.
Qed.

(** C9. A node that is neither an element nor a text node leaves the
    conversion exactly as it was; the only event is the visit itself: no hook
    runs and no child is visited. *)
Theorem other_node_ignored (fuel : nat) (el : Node) (w : World) :
  nodeType el <> ELEMENT_NODE ->
  nodeType el <> TEXT_NODE ->
  convertElement methods plugins (S fuel) (Some el) w = (Ok tt, visited el w)
  /\ conv (visited el w) = conv w
  /\ trace (visited el w) = trace w ++ [EvVisit (nextId w) el].
Proof.
  intros He Ht. split; [| split; reflexivity].
  simpl. unfold bind, enter, convertNode.
  apply Z.eqb_neq in He, Ht. rewrite He, Ht. reflexivity.
Qed.

(** C10. A text node whose [nodeValue] is null or undefined is written as the
    empty string, and the visit completes without an error. *)
Theorem null_text_is_empty (fuel : nat) (el : Node) (w : World) :
  nodeType el = TEXT_NODE ->
  nodeValue el = None ->
  JS.orElse (nodeValue el) EmptyString = EmptyString
  /\ convertElement methods plugins (S fuel) (Some el) w
     = (Ok tt,
        mkWorld (writeText methods EmptyString (conv w))
                (trace w ++ [EvVisit (nextId w) el]) (S (nextId w))).
Proof.
  intros Htype Hvalue. split.
  - rewrite Hvalue. reflexivity.
  - simpl. unfold bind, enter, convertNode. rewrite Htype. simpl.
    rewrite convertText_writes, Hvalue. reflexivity.
Qed.

End Visits.

(** ** Trimming *)

Lemma trimStart_clean (s : string) :
  startsWithWhiteSpace (JS.trimStart s) = false.
Proof.
  induction s as [| c s IH]; simpl.
  - reflexivity.
  - destruct (JS.isWhiteSpace c) eqn:E; [exact IH | simpl; exact E].
Qed.

Lemma trimStart_prefix (s : string) :
  exists pre, s = (pre ++ JS.trimStart s)%string /\ allWhiteSpace pre = true.
Proof.
  induction s as [| c s [pre [IH1 IH2]]]; simpl.
  - exists EmptyString. split; reflexivity.
  - destruct (JS.isWhiteSpace c) eqn:E.
    + exists (String c pre). simpl. rewrite E, IH2, <- IH1.
      split; reflexivity.
    + exists EmptyString. split; reflexivity.
Qed.

Lemma trimEnd_clean (s : string) :
  endsWithWhiteSpace (JS.trimEnd s) = false.
Proof.
  induction s as [| c s IH]; simpl.
  - reflexivity.
  - destruct (JS.trimEnd s) as [| d r] eqn:Er.
    + destruct (JS.isWhiteSpace c) eqn:E; simpl; [reflexivity | exact E].
    + rewrite andb_false_r. exact IH.
Qed.

Lemma trimEnd_suffix (s : string) :
  exists post, s = (JS.trimEnd s ++ post)%string /\ allWhiteSpace post = true.
Proof.
  induction s as [| c s [post [IH1 IH2]]]; simpl.
  - exists EmptyString. split; reflexivity.
  - destruct (JS.trimEnd s) as [| d r] eqn:Er.
    + destruct (JS.isWhiteSpace c) eqn:E; simpl.
      * exists (String c post). simpl in IH1. subst post.
        simpl. rewrite E, IH2. split; reflexivity.
      * exists post. simpl in IH1. subst post.
        split; [reflexivity | exact IH2].
    + rewrite andb_false_r. exists post. simpl.
      rewrite IH1 at 1. split; [reflexivity | exact IH2].
Qed.

Lemma trimEnd_keeps_start (s : string) :
  startsWithWhiteSpace s = false ->
  startsWithWhiteSpace (JS.trimEnd s) = false.
Proof.
  destruct s as [| c s]; simpl; intros H.
  - reflexivity.
  - rewrite H. simpl. exact H.
Qed.

Lemma trimStart_id (s : string) :
  startsWithWhiteSpace s = false -> JS.trimStart s = s.
Proof.
  destruct s as [| c s]; simpl; intros H; [reflexivity | rewrite H; reflexivity].
Qed.

Lemma trimEnd_idempotent (s : string) :
  JS.trimEnd (JS.trimEnd s) = JS.trimEnd s.
Proof.
  induction s as [| c s IH]; simpl.
  - reflexivity.
  - destruct (JS.isWhiteSpace c && JS.isEmpty (JS.trimEnd s)) eqn:E.
    + reflexivity.
    + simpl. rewrite IH, E. reflexivity.
Qed.

Lemma trim_clean (s : string) :
  startsWithWhiteSpace (JS.trim s) = false
  /\ endsWithWhiteSpace (JS.trim s) = false.
Proof.
  unfold JS.trim. split.
  - apply trimEnd_keeps_start, trimStart_clean.
  - apply trimEnd_clean.
Qed.

Lemma trim_idempotent (s : string) : JS.trim (JS.trim s) = JS.trim s.
Proof.
  unfold JS.trim.
  rewrite (trimStart_id (JS.trimEnd (JS.trimStart s))).
  - apply trimEnd_idempotent.
  - apply trimEnd_keeps_start, trimStart_clean.
Qed.

Lemma trim_middle (s : string) :
  exists pre post,
    s = (pre ++ JS.trim s ++ post)%string
    /\ allWhiteSpace pre = true /\ allWhiteSpace post = true.
Proof.
  destruct (trimStart_prefix s) as [pre [H1 H2]].
  destruct (trimEnd_suffix (JS.trimStart s)) as [post [H3 H4]].
  exists pre, post. unfold JS.trim. rewrite <- H3, <- H1.
  split; [reflexivity | split; assumption].
Qed.

(** ** Events are only added, and number the visits *)

Lemma visitEvent_weaken (lo hi lo' hi' : nat) (ev : Event) :
  visitEvent lo hi ev -> lo' <= lo -> hi <= hi' -> visitEvent lo' hi' ev.
Proof. destruct ev; simpl; try tauto; lia. Qed.

Lemma visitEvents_weaken (lo hi lo' hi' : nat) (events : list Event) :
  Forall (visitEvent lo hi) events -> lo' <= lo -> hi <= hi' ->
  Forall (visitEvent lo' hi') events.
Proof.
  intros H Hlo Hhi. eapply Forall_impl; [| exact H].
  intros ev Hev. eapply visitEvent_weaken; eassumption.
Qed.

Lemma fresh_ret {A : Type} (a : A) : fresh (ret a).
Proof.
  intros w o w' H. inversion H; subst. exists [].
  rewrite app_nil_r. repeat split; [lia | constructor].
Qed.

Lemma fresh_throw {A : Type} (e : Error) : fresh (@throw A e).
Proof.
  intros w o w' H. inversion H; subst. exists [].
  rewrite app_nil_r. repeat split; [lia | constructor].
Qed.

Lemma fresh_modify (f : Conversion -> Conversion) : fresh (modify f).
Proof.
  intros w o w' H. inversion H; subst. exists []. simpl.
  rewrite app_nil_r. repeat split; [lia | constructor].
Qed.

Lemma fresh_getConversion : fresh getConversion.
Proof.
  intros w o w' H. inversion H; subst. exists [].
  rewrite app_nil_r. repeat split; [lia | constructor].
Qed.

Lemma fresh_bind {A B : Type} (m : M A) (f : A -> M B) :
  fresh m -> (forall a, fresh (f a)) -> fresh (bind m f).
Proof.
  intros Hm Hf w o w' H.
  apply bind_inv in H as [(a & w1 & H1 & H2) | (e & H1 & ->)].
  - destruct (Hm _ _ _ H1) as (ev1 & T1 & N1 & F1).
    destruct (Hf a _ _ _ H2) as (ev2 & T2 & N2 & F2).
    exists (ev1 ++ ev2). split; [rewrite T2, T1, app_assoc; reflexivity |].
    split; [lia |]. apply Forall_app. split.
    + eapply visitEvents_weaken; [exact F1 | lia | lia].
    + eapply visitEvents_weaken; [exact F2 | lia | lia].
  - exact (Hm _ _ _ H1).
Qed.

Lemma fresh_freshFrom {A : Type} (lo : nat) (m : M A) :
  fresh m -> freshFrom lo m.
Proof.
  intros Hm w o w' Hlo H. destruct (Hm _ _ _ H) as (ev & T & N & F).
  exists ev. repeat split; try assumption.
  eapply visitEvents_weaken; [exact F | lia | lia].
Qed.

Lemma freshFrom_bind {A B : Type} (lo : nat) (m : M A) (f : A -> M B) :
  freshFrom lo m -> (forall a, freshFrom lo (f a)) -> freshFrom lo (bind m f).
Proof.
  intros Hm Hf w o w' Hlo H.
  apply bind_inv in H as [(a & w1 & H1 & H2) | (e & H1 & ->)].
  - destruct (Hm _ _ _ Hlo H1) as (ev1 & T1 & N1 & F1).
    assert (Hlo1 : lo < nextId w1) by lia.
    destruct (Hf a _ _ _ Hlo1 H2) as (ev2 & T2 & N2 & F2).
    exists (ev1 ++ ev2). split; [rewrite T2, T1, app_assoc; reflexivity |].
    split; [lia |]. apply Forall_app. split.
    + eapply visitEvents_weaken; [exact F1 | lia | lia].
    + exact F2.
  - exact (Hm _ _ _ Hlo H1).
Qed.

Lemma freshFrom_log (lo : nat) (ev : Event) :
  (forall hi, lo < hi -> visitEvent lo hi ev) -> freshFrom lo (log ev).
Proof.
  intros Hev w o w' Hlo H. inversion H; subst. exists [ev]. simpl.
  repeat split; [lia |]. constructor; [apply Hev; exact Hlo | constructor].
Qed.

Lemma fresh_runHook {A : Type} (visit : option Node -> M unit)
      (p : HookProg A) :
  (forall n, fresh (visit n)) -> fresh (runHook visit p).
Proof.
  intros Hvisit.
  induction p as [a | msg | k IH | c k IH | n k IH | n k IH]; simpl.
  - apply fresh_ret.
  - apply fresh_throw.
  - intros w o w' H. exact (IH (conv w) w o w' H).
  - intros w o w' H. exact (IH _ o w' H).
  - apply fresh_bind; [apply Hvisit | intros _; exact IH].
  - intros w o w' H.
    destruct (visit n w) as [r w1] eqn:Hn.
    destruct (Hvisit n _ _ _ Hn) as (ev1 & T1 & N1 & F1).
    assert (Hk : exists caught, runHook visit (k caught) w1 = (o, w'))
      by (destruct r as [[] | e]; eexists; exact H).
    destruct Hk as (caught & Hk).
    destruct (IH caught _ _ _ Hk) as (ev2 & T2 & N2 & F2).
    exists (ev1 ++ ev2). split; [rewrite T2, T1, app_assoc; reflexivity |].
    split; [lia |]. apply Forall_app. split.
    + eapply visitEvents_weaken; [exact F1 | lia | lia].
    + eapply visitEvents_weaken; [exact F2 | lia | lia].
Qed.

Lemma fresh_forChildNodes (visit : option Node -> M unit) (nodes : list Node)
      (remaining i : nat) :
  (forall n, fresh (visit n)) -> fresh (forChildNodes visit nodes remaining i).
Proof.
  intros Hvisit. revert i.
  induction remaining as [| k IH]; intros i; simpl.
  - apply fresh_ret.
  - apply fresh_bind; [apply Hvisit | intros _; apply IH].
Qed.

Section Freshness.

Variable methods : ConversionMethods.
Variable plugins : Plugins.

Lemma fresh_convertText (el : Node) : fresh (convertText methods el).
Proof.
  intros w o w' H. rewrite convertText_writes in H. inversion H; subst.
  exists []. simpl. rewrite app_nil_r. repeat split; [lia | constructor].
Qed.

Lemma freshFrom_callBeforeAndConvert (visit : option Node -> M unit)
      (id : nat) (p : Plugin) (context : Context) :
  (forall n, fresh (visit n)) ->
  freshFrom id (callBeforeAndConvert visit id p context).
Proof.
  intros Hvisit. unfold callBeforeAndConvert.
  apply freshFrom_bind; [apply freshFrom_log; simpl; intros; lia |].
  intros _. apply freshFrom_bind.
  { apply fresh_freshFrom, fresh_runHook, Hvisit. }
  intros context1.
  apply freshFrom_bind; [apply freshFrom_log; simpl; intros; lia |].
  intros _. apply fresh_freshFrom, fresh_runHook, Hvisit.
Qed.

Lemma freshFrom_callAfter (visit : option Node -> M unit)
      (id : nat) (p : Plugin) (context : Context) :
  (forall n, fresh (visit n)) ->
  freshFrom id (callAfter visit id p context).
Proof.
  intros Hvisit. unfold callAfter.
  apply freshFrom_bind; [apply freshFrom_log; simpl; intros; lia |].
  intros _. apply fresh_freshFrom, fresh_runHook, Hvisit.
Qed.

Lemma freshFrom_convertElementNode (visit : option Node -> M unit)
      (id : nat) (el : Node) :
  (forall n, fresh (visit n)) ->
  freshFrom id (convertElementNode plugins visit id el).
Proof.
  intros Hvisit. unfold convertElementNode.
  destruct (negb (isVisible el)); [apply fresh_freshFrom, fresh_ret |].
  apply freshFrom_bind; [apply fresh_freshFrom, fresh_modify |].
  intros _. apply freshFrom_bind; [apply fresh_freshFrom, fresh_getConversion |].
  intros conversion.
  destruct (JS.getProperty (tagName conversion) plugins) as [p |].
  - apply freshFrom_bind; [apply freshFrom_callBeforeAndConvert, Hvisit |].
    intros [convertChildren context'].
    apply freshFrom_bind; [| intros _; apply freshFrom_callAfter, Hvisit].
    destruct (JS.ToBoolean convertChildren).
    + apply fresh_freshFrom, fresh_forChildNodes, Hvisit.
    + apply fresh_freshFrom, fresh_ret.
  - apply freshFrom_bind; [apply fresh_freshFrom, fresh_ret |].
    intros [convertChildren context'].
    apply freshFrom_bind; [| intros _; apply fresh_freshFrom, fresh_ret].
    destruct (JS.ToBoolean convertChildren).
    + apply fresh_freshFrom, fresh_forChildNodes, Hvisit.
    + apply fresh_freshFrom, fresh_ret.
Qed.

Lemma freshFrom_convertNode (visit : option Node -> M unit)
      (id : nat) (el : Node) :
  (forall n, fresh (visit n)) ->
  freshFrom id (convertNode methods plugins visit id el).
Proof.
  intros Hvisit. unfold convertNode.
  destruct (nodeType el =? ELEMENT_NODE)%Z.
  - apply freshFrom_convertElementNode, Hvisit.
  - destruct (nodeType el =? TEXT_NODE)%Z.
    + apply fresh_freshFrom, fresh_convertText.
    + apply fresh_freshFrom, fresh_ret.
Qed.

Lemma fresh_convertElement (fuel : nat) (element : option Node) :
  fresh (convertElement methods plugins fuel element).
Proof.
  revert element. induction fuel as [| fuel IH]; intros element.
  - apply fresh_throw.
  - destruct element as [el |]; [| apply fresh_ret].
    intros w o w' H. simpl in H.
    apply bind_inv in H as [(id & w1 & H1 & H2) | (e & H1 & _)];
      [| discriminate H1].
    unfold enter in H1. inversion H1; subst id w1; clear H1.
    destruct (freshFrom_convertNode (convertElement methods plugins fuel)
                (nextId w) el IH (visited el w) o w') as (events & T & N & F);
      [simpl; lia | exact H2 |].
    simpl in T, N.
    exists (EvVisit (nextId w) el :: events).
    split; [rewrite T, <- app_assoc; reflexivity |].
    split; [lia |]. constructor; [simpl; lia | exact F].
Qed.

End Freshness.

(** ** Events and visit numbers do not steer the engine *)

Lemma similar_ret {A : Type} (a : A) : similar (ret a) (ret a).
Proof. intros w1 w2 H. split; [reflexivity | exact H]. Qed.

Lemma similar_throw {A : Type} (e : Error) : similar (@throw A e) (throw e).
Proof. intros w1 w2 H. split; [reflexivity | exact H]. Qed.

Lemma similar_log (ev1 ev2 : Event) : similar (log ev1) (log ev2).
Proof. intros w1 w2 H. split; [reflexivity | exact H]. Qed.

Lemma similar_modify (f : Conversion -> Conversion) :
  similar (modify f) (modify f).
Proof. intros w1 w2 H. split; [reflexivity | simpl; rewrite H; reflexivity]. Qed.

Lemma similar_bind {A B : Type} (m1 m2 : M A) (f1 f2 : A -> M B) :
  similar m1 m2 -> (forall a, similar (f1 a) (f2 a)) ->
  similar (bind m1 f1) (bind m2 f2).
Proof.
  intros Hm Hf w1 w2 H. unfold bind.
  destruct (Hm w1 w2 H) as [Ho Hc].
  destruct (m1 w1) as [[a1 | e1] w1'], (m2 w2) as [[a2 | e2] w2'];
    simpl in Ho, Hc; try discriminate Ho.
  - inversion Ho; subst a2. apply Hf. exact Hc.
  - inversion Ho; subst e2. split; [reflexivity | exact Hc].
Qed.

Lemma similar_getConversion {A : Type} (f1 f2 : Conversion -> M A) :
  (forall c, similar (f1 c) (f2 c)) ->
  similar (bind getConversion f1) (bind getConversion f2).
Proof.
  intros Hf w1 w2 H. unfold bind, getConversion. rewrite H.
  apply Hf. exact H.
Qed.

Lemma similar_runHook {A : Type} (visit1 visit2 : option Node -> M unit)
      (p : HookProg A) :
  (forall n, similar (visit1 n) (visit2 n)) ->
  similar (runHook visit1 p) (runHook visit2 p).
Proof.
  intros Hvisit.
  induction p as [a | msg | k IH | c k IH | n k IH | n k IH]; simpl.
  - apply similar_ret.
  - apply similar_throw.
  - intros w1 w2 H. rewrite H. apply IH. exact H.
  - intros w1 w2 H. apply IH. reflexivity.
  - apply similar_bind; [apply Hvisit | intros _; exact IH].
  - intros w1 w2 H. destruct (Hvisit n w1 w2 H) as [Ho Hc].
    destruct (visit1 n w1) as [[[] | e1] w1'],
             (visit2 n w2) as [[[] | e2] w2'];
      simpl in Ho, Hc; try discriminate Ho.
    + apply IH. exact Hc.
    + inversion Ho; subst e2. apply IH. exact Hc.
Qed.

Lemma similar_forChildNodes (visit1 visit2 : option Node -> M unit)
      (nodes : list Node) (remaining i : nat) :
  (forall n, similar (visit1 n) (visit2 n)) ->
  similar (forChildNodes visit1 nodes remaining i)
          (forChildNodes visit2 nodes remaining i).
Proof.
  intros Hvisit. revert i.
  induction remaining as [| k IH]; intros i; simpl.
  - apply similar_ret.
  - apply similar_bind; [apply Hvisit | intros _; apply IH].
Qed.

Section Ghost.

Variable methods : ConversionMethods.
Variable plugins : Plugins.

Lemma similar_convertNode (visit1 visit2 : option Node -> M unit)
      (id1 id2 : nat) (el : Node) :
  (forall n, similar (visit1 n) (visit2 n)) ->
  similar (convertNode methods plugins visit1 id1 el)
          (convertNode methods plugins visit2 id2 el).
Proof.
  intros Hvisit. unfold convertNode.
  destruct (nodeType el =? ELEMENT_NODE)%Z.
  - unfold convertElementNode.
    destruct (negb (isVisible el)); [apply similar_ret |].
    apply similar_bind; [apply similar_modify |]. intros _.
    apply similar_getConversion. intros conversion.
    destruct (JS.getProperty (tagName conversion) plugins) as [p |].
    + apply similar_bind.
      { unfold callBeforeAndConvert.
        apply similar_bind; [apply similar_log |]. intros _.
        apply similar_bind; [apply similar_runHook, Hvisit |]. intros c1.
        apply similar_bind; [apply similar_log |]. intros _.
        apply similar_runHook, Hvisit. }
      intros [convertChildren context'].
      apply similar_bind.
      { destruct (JS.ToBoolean convertChildren);
          [apply similar_forChildNodes, Hvisit | apply similar_ret]. }
      intros _. unfold callAfter.
      apply similar_bind; [apply similar_log |]. intros _.
      apply similar_runHook, Hvisit.
    + apply similar_bind; [apply similar_ret |].
      intros [convertChildren context'].
      apply similar_bind; [| intros _; apply similar_ret].
      destruct (JS.ToBoolean convertChildren);
        [apply similar_forChildNodes, Hvisit | apply similar_ret].
  - destruct (nodeType el =? TEXT_NODE)%Z; [| apply similar_ret].
    intros w1 w2 H. rewrite !convertText_writes. split; [reflexivity |].
    simpl. rewrite H. reflexivity.
Qed.

(** The outcome of a visit and the conversion it leaves depend on the
    conversion it starts from only, not on the events recorded so far nor on
    the numbers given to visits. *)
Lemma convertElement_ghost (fuel : nat) (element : option Node) :
  similar (convertElement methods plugins fuel element)
          (convertElement methods plugins fuel element).
Proof.
  revert element. induction fuel as [| fuel IH]; intros element.
  - apply similar_throw.
  - destruct element as [el |]; [| apply similar_ret]. simpl.
    intros w1 w2 H. unfold bind at 1 2. unfold enter.
    apply similar_convertNode; [exact IH | exact H].
Qed.

End Ghost.

(** ** Counting events *)

Lemma count_app (f : Event -> bool) (a b : list Event) :
  count f (a ++ b) = count f a + count f b.
Proof. unfold count. rewrite filter_app, length_app. reflexivity. Qed.

Lemma count_cons (f : Event -> bool) (ev : Event) (l : list Event) :
  count f (ev :: l) = (if f ev then 1 else 0) + count f l.
Proof. unfold count. simpl. destruct (f ev); reflexivity. Qed.

Lemma count_none (f : Event -> bool) (l : list Event) :
  Forall (fun ev => f ev = false) l -> count f l = 0.
Proof.
  induction 1 as [| ev l Hev _ IH]; [reflexivity |].
  rewrite count_cons, Hev, IH. reflexivity.
Qed.

Lemma visitEvents_other_visit (lo hi id : nat) (events : list Event) :
  Forall (visitEvent lo hi) events -> id < lo ->
  count (isBefore id) events = 0 /\ count (isAfter id) events = 0.
Proof.
  intros F Hid. split; apply count_none; eapply Forall_impl; try exact F;
    intros ev Hev; destruct ev; simpl in *; try reflexivity;
    apply Nat.eqb_neq; lia.
Qed.

Lemma visitEvents_no_All (lo hi pid : nat) (events : list Event) :
  Forall (visitEvent lo hi) events ->
  count (isBeforeAll pid) events = 0 /\ count (isAfterAll pid) events = 0.
Proof.
  intros F. split; apply count_none; eapply Forall_impl; try exact F;
    intros ev Hev; destruct ev; simpl in *; try reflexivity; contradiction.
Qed.

Lemma fresh_other_visit {A : Type} (m : M A) (id : nat) (w w' : World)
      (o : Outcome A) :
  fresh m -> m w = (o, w') -> id < nextId w ->
  exists events,
    trace w' = trace w ++ events
    /\ nextId w <= nextId w'
    /\ count (isBefore id) events = 0 /\ count (isAfter id) events = 0.
Proof.
  intros Hm H Hid. destruct (Hm _ _ _ H) as (events & T & N & F).
  exists events. split; [exact T |]. split; [exact N |].
  eapply visitEvents_other_visit; eassumption.
Qed.

(** ** The loop over the children *)

Lemma forChildNodes_in_order (visit : option Node -> M unit)
      (done rest : list Node) :
  forChildNodes visit (done ++ rest) (length rest) (length done)
  = visitInOrder visit rest.
Proof.
  revert done. induction rest as [| child rest IH]; intros done; simpl.
  - reflexivity.
  - rewrite nth_error_app2 by lia. rewrite Nat.sub_diag. simpl.
    replace (done ++ child :: rest) with ((done ++ [child]) ++ rest)
      by (rewrite <- app_assoc; reflexivity).
    replace (S (length done)) with (length (done ++ [child]))
      by (rewrite length_app; simpl; lia).
    rewrite IH. reflexivity.
Qed.

Lemma convertChildNodes_in_order (visit : option Node -> M unit)
      (nodes : list Node) :
  convertChildNodes visit nodes = visitInOrder visit nodes.
Proof. exact (forChildNodes_in_order visit [] nodes). Qed.

(** ** Elements *)

Lemma tagName_set_element (el : Node) (c : Conversion) :
  tagName (set_element el c) = JS.toLowerCase (nodeName el).
Proof. reflexivity. Qed.

Section Elements.

Variable methods : ConversionMethods.
Variable plugins : Plugins.

Lemma convertElement_matched (fuel : nat) (el : Node) (p : Plugin) (w : World) :
  matched plugins el p ->
  convertElement methods plugins (S fuel) (Some el) w
  = (r <- callBeforeAndConvert (convertElement methods plugins fuel)
                               (nextId w) p [] ;;
     (if JS.ToBoolean (fst r)
      then visitInOrder (convertElement methods plugins fuel) (childNodes el)
      else ret tt) ;;
     callAfter (convertElement methods plugins fuel) (nextId w) p (snd r))
    (entered el w).
Proof.
  intros (Htype & Hvisible & Hplugin).
  simpl. unfold bind at 1. unfold enter, convertNode, convertElementNode.
  rewrite Htype, Hvisible. simpl.
  unfold bind at 1. unfold modify. unfold bind at 1. unfold getConversion.
  cbn [conv]. rewrite tagName_set_element, Hplugin.
  rewrite convertChildNodes_in_order.
  unfold entered. cbn [trace nextId]. unfold bind.
  destruct (callBeforeAndConvert _ _ _ _ _) as [[[cc ctx] | e] w1]; reflexivity.
Qed.

Lemma convertElement_unmatched (fuel : nat) (el : Node) (w : World) :
  nodeType el = ELEMENT_NODE ->
  isVisible el = true ->
  JS.getProperty (JS.toLowerCase (nodeName el)) plugins = None ->
  convertElement methods plugins (S fuel) (Some el) w
  = visitInOrder (convertElement methods plugins fuel) (childNodes el)
                 (entered el w).
Proof.
  intros Htype Hvisible Hplugin.
  simpl. unfold bind at 1. unfold enter, convertNode, convertElementNode.
  rewrite Htype, Hvisible. simpl.
  unfold bind at 1. unfold modify. unfold bind at 1. unfold getConversion.
  cbn [conv]. rewrite tagName_set_element, Hplugin.
  rewrite convertChildNodes_in_order.
  unfold bind at 1. unfold ret at 1. cbn [JS.ToBoolean]. unfold bind, entered.
  cbn [trace nextId].
  destruct (visitInOrder _ _ _) as [[[] | e] w1]; reflexivity.
Qed.

End Elements.

(** ** The hooks of an element *)

Section Pairing.

Variable methods : ConversionMethods.
Variable plugins : Plugins.

#[local] Abbreviation visit := (convertElement methods plugins).

Lemma fresh_visit (fuel : nat) (n : option Node) : fresh (visit fuel n).
Proof. apply fresh_convertElement. Qed.

Lemma callBeforeAndConvert_events (fuel id : nat) (p : Plugin)
      (context : Context) (w w1 : World) (r : JS.Value * Context) :
  id < nextId w ->
  callBeforeAndConvert (visit fuel) id p context w = (Ok r, w1) ->
  exists events,
    trace w1 = trace w ++ EvBefore id (Plugin.pluginId p) :: events
    /\ nextId w <= nextId w1
    /\ count (isBefore id) events = 0 /\ count (isAfter id) events = 0.
Proof.
  intros Hid H. unfold callBeforeAndConvert in H.
  apply bind_Ok in H as ([] & wa & Ha & H). inversion Ha; subst wa; clear Ha.
  apply bind_Ok in H as (context1 & wb & Hb & H).
  apply bind_Ok in H as ([] & wc & Hc & H). inversion Hc; subst wc; clear Hc.
  eapply (fresh_other_visit _ id) in Hb as (e1 & T1 & N1 & B1 & A1);
    [| apply fresh_runHook, fresh_visit | simpl; exact Hid].
  simpl in N1.
  eapply (fresh_other_visit _ id) in H as (e2 & T2 & N2 & B2 & A2);
    [| apply fresh_runHook, fresh_visit | simpl; lia].
  simpl in *.
  exists (e1 ++ EvConvert id (Plugin.pluginId p) :: e2).
  split.
  { rewrite T2, T1. repeat rewrite <- app_assoc. reflexivity. }
  split; [lia |].
  split; rewrite !count_app, !count_cons; simpl; lia.
Qed.

Lemma callAfter_events (fuel id : nat) (p : Plugin)
      (context : Context) (w w1 : World) :
  id < nextId w ->
  callAfter (visit fuel) id p context w = (Ok tt, w1) ->
  exists events,
    trace w1 = trace w ++ EvAfter id (Plugin.pluginId p) :: events
    /\ nextId w <= nextId w1
    /\ count (isBefore id) events = 0 /\ count (isAfter id) events = 0.
Proof.
  intros Hid H. unfold callAfter in H.
  apply bind_Ok in H as ([] & wa & Ha & H). inversion Ha; subst wa; clear Ha.
  eapply (fresh_other_visit _ id) in H as (e1 & T1 & N1 & B1 & A1);
    [| apply fresh_runHook, fresh_visit | simpl; exact Hid].
  simpl in *. exists e1. rewrite T1, <- app_assoc.
  repeat split; try assumption.
Qed.

(** C1, as the engine has it.  For every element matched by a plugin whose
    visit completes without an error, the events of the visit hold the call
    of [before] exactly once and the call of [after] exactly once, [before]
    first and [after] after everything the hooks of the element and its
    descendants did in between, whatever [convert] returned. *)
Theorem before_after_paired (fuel : nat) (el : Node) (p : Plugin)
        (w w' : World) :
  matched plugins el p ->
  convertElement methods plugins (S fuel) (Some el) w = (Ok tt, w') ->
  exists events mid post,
    trace w' = trace w ++ events
    /\ events = EvVisit (nextId w) el
                :: EvBefore (nextId w) (Plugin.pluginId p)
                :: mid ++ EvAfter (nextId w) (Plugin.pluginId p) :: post
    /\ count (isBefore (nextId w)) events = 1
    /\ count (isAfter (nextId w)) events = 1
    /\ count (isAfter (nextId w)) mid = 0
    /\ count (isBefore (nextId w)) post = 0.
Proof.
  intros Hmatched H. rewrite (convertElement_matched _ _ _ _ _ _ Hmatched) in H.
  apply bind_Ok in H as (r & w1 & H1 & H).
  apply bind_Ok in H as ([] & w2 & H2 & H3).
  apply callBeforeAndConvert_events in H1 as (e1 & T1 & N1 & B1 & A1);
    [| simpl; lia].
  assert (Hchildren : fresh (if JS.ToBoolean (fst r)
                             then visitInOrder (visit fuel) (childNodes el)
                             else ret tt)).
  { destruct (JS.ToBoolean (fst r)); [| apply fresh_ret].
    rewrite <- convertChildNodes_in_order.
    apply fresh_forChildNodes, fresh_visit. }
  eapply (fresh_other_visit _ (nextId w)) in H2 as (e2 & T2 & N2 & B2 & A2);
    [| exact Hchildren | simpl in N1; lia].
  apply callAfter_events in H3 as (e3 & T3 & N3 & B3 & A3);
    [| simpl in N1; lia].
  simpl in T1.
  exists (EvVisit (nextId w) el
          :: EvBefore (nextId w) (Plugin.pluginId p)
          :: (e1 ++ e2) ++ EvAfter (nextId w) (Plugin.pluginId p) :: e3),
         (e1 ++ e2), e3.
  split.
  { rewrite T3, T2, T1. repeat rewrite <- app_assoc. reflexivity. }
  split; [reflexivity |].
  repeat rewrite ?count_cons, ?count_app. simpl.
  rewrite Nat.eqb_refl. repeat split; lia.
Qed.


End Pairing.

(** ** The phases of a conversion *)

Lemma entriesOf_cons (pid : nat) (tag : string) (p : Plugin) (rest : Plugins) :
  entriesOf pid ((tag, p) :: rest)
  = (if Nat.eqb (Plugin.pluginId p) pid then 1 else 0) + entriesOf pid rest.
Proof.
  unfold entriesOf. simpl. destruct (Nat.eqb (Plugin.pluginId p) pid); reflexivity.
Qed.

Section Phases.

Variable methods : ConversionMethods.
Variable provider : DOMProvider.
Variable plugins : Plugins.

Lemma runHook_no_All {A : Type} (fuel : nat) (p : HookProg A) (w w' : World)
      (o : Outcome A) :
  runHook (convertElement methods plugins fuel) p w = (o, w') ->
  exists events,
    trace w' = trace w ++ events
    /\ forall pid,
        count (isBeforeAll pid) events = 0 /\ count (isAfterAll pid) events = 0.
Proof.
  intros H.
  destruct (fresh_runHook (convertElement methods plugins fuel) p
              (fresh_convertElement methods plugins fuel) _ _ _ H)
    as (events & T & _ & F).
  exists events. split; [exact T |].
  intros pid. eapply visitEvents_no_All; exact F.
Qed.

Lemma forOwn_beforeAll_events (fuel : nat) (entries : Plugins) (w w' : World) :
  forOwn entries (callBeforeAll methods plugins fuel) w = (Ok tt, w') ->
  exists events,
    trace w' = trace w ++ events
    /\ forall pid,
        count (isBeforeAll pid) events = entriesOf pid entries
        /\ count (isAfterAll pid) events = 0.
Proof.
  revert w. induction entries as [| [tag p] rest IH]; intros w H; simpl in H.
  - inversion H; subst. exists []. rewrite app_nil_r.
    split; [reflexivity |]. intros pid. split; reflexivity.
  - apply bind_Ok in H as ([] & w1 & H1 & H2).
    unfold callBeforeAll in H1.
    apply bind_Ok in H1 as ([] & wa & Ha & H1).
    inversion Ha; subst wa; clear Ha.
    apply runHook_no_All in H1 as (e1 & T1 & C1).
    apply IH in H2 as (e2 & T2 & C2). simpl in T1.
    exists (EvBeforeAll tag (Plugin.pluginId p) :: e1 ++ e2).
    split.
    { rewrite T2, T1. repeat rewrite <- app_assoc. reflexivity. }
    intros pid. destruct (C1 pid) as [B1 A1]. destruct (C2 pid) as [B2 A2].
    rewrite entriesOf_cons, !count_cons, !count_app. simpl. lia.
Qed.

Lemma forOwn_afterAll_events (fuel : nat) (entries : Plugins) (w w' : World) :
  forOwn entries (callAfterAll methods plugins fuel) w = (Ok tt, w') ->
  exists events,
    trace w' = trace w ++ events
    /\ forall pid,
        count (isBeforeAll pid) events = 0
        /\ count (isAfterAll pid) events = entriesOf pid entries.
Proof.
  revert w. induction entries as [| [tag p] rest IH]; intros w H; simpl in H.
  - inversion H; subst. exists []. rewrite app_nil_r.
    split; [reflexivity |]. intros pid. split; reflexivity.
  - apply bind_Ok in H as ([] & w1 & H1 & H2).
    unfold callAfterAll in H1.
    apply bind_Ok in H1 as ([] & wa & Ha & H1).
    inversion Ha; subst wa; clear Ha.
    apply runHook_no_All in H1 as (e1 & T1 & C1).
    apply IH in H2 as (e2 & T2 & C2). simpl in T1.
    exists (EvAfterAll tag (Plugin.pluginId p) :: e1 ++ e2).
    split.
    { rewrite T2, T1. repeat rewrite <- app_assoc. reflexivity. }
    intros pid. destruct (C1 pid) as [B1 A1]. destruct (C2 pid) as [B2 A2].
    rewrite entriesOf_cons, !count_cons, !count_app. simpl. lia.
Qed.

Lemma convertElement_Ok_events (fuel : nat) (el : Node) (w w' : World) :
  convertElement methods plugins fuel (Some el) w = (Ok tt, w') ->
  exists events,
    trace w' = trace w ++ EvVisit (nextId w) el :: events
    /\ forall pid,
        count (isBeforeAll pid) events = 0 /\ count (isAfterAll pid) events = 0.
Proof.
  intros H. destruct fuel as [| fuel]; [discriminate H |].
  simpl in H. apply bind_Ok in H as (id & w1 & H1 & H2).
  unfold enter in H1. inversion H1; subst id w1; clear H1.
  destruct (freshFrom_convertNode methods plugins
              (convertElement methods plugins fuel) (nextId w) el
              (fresh_convertElement methods plugins fuel) (visited el w)
              (Ok tt) w') as (events & T & _ & F);
    [simpl; lia | exact H2 |].
  simpl in T. exists events. split.
  { rewrite T, <- app_assoc. reflexivity. }
  intros pid. eapply visitEvents_no_All; exact F.
Qed.

Lemma rootOf_events (html : Html) (root : Node) (events : list Event) :
  rootOf provider html = Some (root, events) ->
  forall pid,
    count (isBeforeAll pid) events = 0 /\ count (isAfterAll pid) events = 0.
Proof.
  destruct html as [| s | el]; simpl; intros H; inversion H; subst;
    intros pid; split; reflexivity.
Qed.

Lemma convert_truthy (fuel : nat) (html : Html) :
  truthy html = true ->
  exists root events,
    rootOf provider html = Some (root, events)
    /\ convert methods provider plugins fuel html
       = finish methods (convertRoot methods plugins fuel root
                                     (initialWorld methods events)).
Proof.
  intros H. unfold convert. rewrite H. simpl negb. cbv iota.
  destruct html as [| s | el]; simpl in *.
  - discriminate H.
  - eexists _, _. split; reflexivity.
  - eexists _, _. split; reflexivity.
Qed.

Lemma finish_Ok (result : Outcome unit * World) (r : string) (t : list Event) :
  finish methods result = (Ok r, t) ->
  exists w,
    result = (Ok tt, w)
    /\ r = JS.trim (buffer (append methods EmptyString (conv w)))
    /\ t = trace w.
Proof.
  destruct result as [[[] | e] w]; simpl; intros H; inversion H; subst.
  exists w. repeat split.
Qed.

Lemma convert_Ok_phases (fuel : nat) (html : Html) (r : string)
      (t : list Event) :
  truthy html = true ->
  convert methods provider plugins fuel html = (Ok r, t) ->
  exists root start id evB evT evA,
    rootOf provider html = Some (root, start)
    /\ t = start ++ evB ++ EvVisit id root :: evT ++ evA
    /\ forall pid,
        count (isBeforeAll pid) start = 0
        /\ count (isAfterAll pid) start = 0
        /\ count (isBeforeAll pid) evB = entriesOf pid plugins
        /\ count (isAfterAll pid) evB = 0
        /\ count (isBeforeAll pid) evT = 0
        /\ count (isAfterAll pid) evT = 0
        /\ count (isBeforeAll pid) evA = 0
        /\ count (isAfterAll pid) evA = entriesOf pid plugins.
Proof.
  intros Htruthy H.
  destruct (convert_truthy fuel html Htruthy) as (root & start & Hroot & Hc).
  rewrite Hc in H. apply finish_Ok in H as (w & H & _ & ->).
  unfold convertRoot in H.
  apply bind_Ok in H as ([] & w1 & H1 & H).
  apply bind_Ok in H as ([] & w2 & H2 & H3).
  apply forOwn_beforeAll_events in H1 as (evB & TB & CB).
  apply convertElement_Ok_events in H2 as (evT & TT & CT).
  apply forOwn_afterAll_events in H3 as (evA & TA & CA).
  simpl in TB.
  exists root, start, (nextId w1), evB, evT, evA.
  split; [exact Hroot |]. split.
  { rewrite TA, TT, TB. repeat rewrite <- app_assoc. reflexivity. }
  intros pid.
  destruct (CB pid) as [B1 A1]. destruct (CT pid) as [B2 A2].
  destruct (CA pid) as [B3 A3].
  destruct (rootOf_events _ _ _ Hroot pid) as [B0 A0].
  repeat split; assumption.
Qed.

(** C3, as the engine has it.  In a conversion that completes, every entry of
    the registry (every tag name with the plugin registered for it) has its
    plugin's [beforeAll] called once before the traversal of the root and its
    [afterAll] called once after it; the traversal itself calls neither,
    however many elements match.  A plugin is therefore called as many times
    as there are tag names it is registered for. *)
Theorem beforeAll_afterAll_once_per_entry (fuel : nat) (html : Html)
        (r : string) (t : list Event) :
  truthy html = true ->
  convert methods provider plugins fuel html = (Ok r, t) ->
  exists root start id evB evT evA,
    rootOf provider html = Some (root, start)
    /\ t = start ++ evB ++ EvVisit id root :: evT ++ evA
    /\ forall pid,
        count (isBeforeAll pid) evB = entriesOf pid plugins
        /\ count (isAfterAll pid) evB = 0
        /\ count (isBeforeAll pid) evT = 0
        /\ count (isAfterAll pid) evT = 0
        /\ count (isBeforeAll pid) evA = 0
        /\ count (isAfterAll pid) evA = entriesOf pid plugins
        /\ count (isBeforeAll pid) t = entriesOf pid plugins
        /\ count (isAfterAll pid) t = entriesOf pid plugins.
Proof.
  intros Htruthy H.
  destruct (convert_Ok_phases fuel html r t Htruthy H)
    as (root & start & id & evB & evT & evA & Hroot & Ht & Hcount).
  exists root, start, id, evB, evT, evA.
  split; [exact Hroot |]. split; [exact Ht |].
  intros pid.
  destruct (Hcount pid) as (B0 & A0 & B1 & A1 & B2 & A2 & B3 & A3).
  rewrite Ht.
  repeat rewrite ?count_app, ?count_cons. simpl.
  repeat split; lia.
Qed.

(** C6. An absent or empty argument makes [convert] return the empty string
    at once, whatever the stack allows: nothing is thrown and there is no
    event at all, so that nothing was parsed, no node was visited and no hook
    ran, [beforeAll] and [afterAll] included. *)
Theorem falsy_input_empty_result (fuel : nat) (html : Html) :
  truthy html = false ->
  convert methods provider plugins fuel html = (Ok EmptyString, []).
Proof.
  intros H. unfold convert. rewrite H. reflexivity.
Qed.

End Phases.

(** ** Conversions that complete *)

Lemma succeeds_ret {A : Type} (a : A) : succeeds (ret a).
Proof. intros w. exists a, w. reflexivity. Qed.

Lemma succeeds_bind {A B : Type} (m : M A) (f : A -> M B) :
  succeeds m -> (forall a, succeeds (f a)) -> succeeds (bind m f).
Proof.
  intros Hm Hf w. destruct (Hm w) as (a & w1 & H1).
  destruct (Hf a w1) as (b & w2 & H2).
  exists b, w2. rewrite (bind_step _ _ _ _ _ H1). exact H2.
Qed.

Lemma succeeds_log (ev : Event) : succeeds (log ev).
Proof. intros w. eexists _, _. reflexivity. Qed.

Lemma succeeds_modify (f : Conversion -> Conversion) : succeeds (modify f).
Proof. intros w. eexists _, _. reflexivity. Qed.

Lemma succeeds_getConversion : succeeds getConversion.
Proof. intros w. eexists _, _. reflexivity. Qed.

Lemma succeeds_enter (el : Node) : succeeds (enter el).
Proof. intros w. eexists _, _. reflexivity. Qed.

Lemma succeeds_runHook {A : Type} (visit : option Node -> M unit)
      (p : HookProg A) :
  quiet p -> succeeds (runHook visit p).
Proof.
  induction 1 as [a | k _ IH | c k _ IH]; simpl.
  - apply succeeds_ret.
  - intros w. apply IH.
  - intros w. apply IH.
Qed.

Lemma succeeds_visitInOrder (visit : option Node -> M unit)
      (nodes : list Node) :
  (forall child, In child nodes -> succeeds (visit (Some child))) ->
  succeeds (visitInOrder visit nodes).
Proof.
  induction nodes as [| child rest IH]; intros H; simpl.
  - apply succeeds_ret.
  - apply succeeds_bind; [apply H; left; reflexivity |].
    intros _. apply IH. intros c Hc. apply H. right. exact Hc.
Qed.

Lemma getProperty_In {V : Type} (key : string) (obj : JS.Object V) (v : V) :
  JS.getProperty key obj = Some v -> exists k, In (k, v) obj.
Proof.
  induction obj as [| [k x] rest IH]; simpl; intros H.
  - discriminate H.
  - destruct (String.eqb k key).
    + inversion H; subst. exists k. left. reflexivity.
    + destruct (IH H) as (k' & Hk'). exists k'. right. exact Hk'.
Qed.

Lemma height_child (n child : Node) :
  In child (childNodes n) -> height child < height n.
Proof.
  destruct n as [ty name value style children win]. simpl.
  induction children as [| c cs IH]; simpl; intros H.
  - contradiction.
  - destruct H as [-> | H].
    + lia.
    + specialize (IH H). lia.
Qed.

Section Completion.

Variable methods : ConversionMethods.
Variable provider : DOMProvider.
Variable plugins : Plugins.

Hypothesis plugins_quiet : quietPlugins plugins.

Lemma registered_quiet (key : string) (p : Plugin) :
  JS.getProperty key plugins = Some p -> quietPlugin p.
Proof.
  intros H. apply getProperty_In in H as (k & Hk).
  unfold quietPlugins in plugins_quiet.
  rewrite Forall_forall in plugins_quiet.
  exact (plugins_quiet _ Hk).
Qed.

Lemma succeeds_convertElementNode (visit : option Node -> M unit) (id : nat)
      (el : Node) :
  (forall child, In child (childNodes el) -> succeeds (visit (Some child))) ->
  succeeds (convertElementNode plugins visit id el).
Proof.
  intros Hchildren. unfold convertElementNode.
  destruct (negb (isVisible el)); [apply succeeds_ret |].
  apply succeeds_bind; [apply succeeds_modify |]. intros _.
  apply succeeds_bind; [apply succeeds_getConversion |]. intros conversion.
  assert (Hloop : forall v, succeeds
            (if JS.ToBoolean v then convertChildNodes visit (childNodes el)
             else ret tt)).
  { intros v. destruct (JS.ToBoolean v); [| apply succeeds_ret].
    rewrite convertChildNodes_in_order.
    apply succeeds_visitInOrder, Hchildren. }
  destruct (JS.getProperty (tagName conversion) plugins) as [p |] eqn:Hp.
  - destruct (registered_quiet _ _ Hp) as (_ & Hb & Hc & Ha & _).
    apply succeeds_bind.
    { unfold callBeforeAndConvert.
      apply succeeds_bind; [apply succeeds_log |]. intros _.
      apply succeeds_bind; [apply succeeds_runHook, Hb |]. intros context1.
      apply succeeds_bind; [apply succeeds_log |]. intros _.
      apply succeeds_runHook, Hc. }
    intros [convertChildren context'].
    apply succeeds_bind; [apply Hloop |]. intros _.
    unfold callAfter.
    apply succeeds_bind; [apply succeeds_log |]. intros _.
    apply succeeds_runHook, Ha.
  - apply succeeds_bind; [apply succeeds_ret |].
    intros [convertChildren context'].
    apply succeeds_bind; [apply Hloop |]. intros _. apply succeeds_ret.
Qed.

Lemma succeeds_convertElement (fuel : nat) (el : Node) :
  height el <= fuel ->
  succeeds (convertElement methods plugins fuel (Some el)).
Proof.
  revert el. induction fuel as [| fuel IH]; intros el Hheight.
  - destruct el; simpl in Hheight; lia.
  - simpl. apply succeeds_bind; [apply succeeds_enter |]. intros id.
    unfold convertNode.
    destruct (nodeType el =? ELEMENT_NODE)%Z.
    + apply succeeds_convertElementNode. intros child Hchild.
      apply IH. apply height_child in Hchild. lia.
    + destruct (nodeType el =? TEXT_NODE)%Z; [| apply succeeds_ret].
      intros w. eexists _, _. apply convertText_writes.
Qed.

Lemma succeeds_forOwn_beforeAll (fuel : nat) (entries : Plugins) :
  quietPlugins entries ->
  succeeds (forOwn entries (callBeforeAll methods plugins fuel)).
Proof.
  induction 1 as [| [tag p] rest Hp _ IH]; simpl.
  - apply succeeds_ret.
  - destruct Hp as (Hb & _).
    apply succeeds_bind; [| intros _; exact IH].
    unfold callBeforeAll.
    apply succeeds_bind; [apply succeeds_log |]. intros _.
    apply succeeds_runHook, Hb.
Qed.

Lemma succeeds_forOwn_afterAll (fuel : nat) (entries : Plugins) :
  quietPlugins entries ->
  succeeds (forOwn entries (callAfterAll methods plugins fuel)).
Proof.
  induction 1 as [| [tag p] rest Hp _ IH]; simpl.
  - apply succeeds_ret.
  - destruct Hp as (_ & _ & _ & _ & Ha).
    apply succeeds_bind; [| intros _; exact IH].
    unfold callAfterAll.
    apply succeeds_bind; [apply succeeds_log |]. intros _.
    apply succeeds_runHook, Ha.
Qed.

Lemma succeeds_convertRoot (fuel : nat) (root : Node) :
  height root <= fuel ->
  succeeds (convertRoot methods plugins fuel root).
Proof.
  intros Hheight. unfold convertRoot.
  apply succeeds_bind; [apply succeeds_forOwn_beforeAll, plugins_quiet |].
  intros _.
  apply succeeds_bind; [apply succeeds_convertElement, Hheight |].
  intros _. apply succeeds_forOwn_afterAll, plugins_quiet.
Qed.

End Completion.

(** ** The result of a conversion *)

Section Result.

Variable methods : ConversionMethods.
Variable provider : DOMProvider.
Variable plugins : Plugins.

(** C7, as the engine has it.  A conversion of a non-empty input whose hooks
    and traversal complete without an error calls [append('')], which flushes
    what is pending, and returns the buffer trimmed: the result is the buffer
    without the white space it starts and ends with.  There are such
    conversions: with hooks that neither throw nor call back and elements
    whose tags are not names of members the registry inherits, a stack as
    deep as the document is enough for the conversion to return. *)
Theorem convert_flushes_and_trims (fuel : nat) (html : Html) (root : Node)
        (events : list Event) :
  truthy html = true ->
  rootOf provider html = Some (root, events) ->
  let run := convertRoot methods plugins fuel root (initialWorld methods events) in
  (forall w,
      run = (Ok tt, w) ->
      convert methods provider plugins fuel html
      = (Ok (JS.trim (buffer (append methods EmptyString (conv w)))), trace w))
  /\ (forall r t,
         convert methods provider plugins fuel html = (Ok r, t) ->
         exists w pre post,
           run = (Ok tt, w)
           /\ buffer (append methods EmptyString (conv w))
              = (pre ++ r ++ post)%string
           /\ allWhiteSpace pre = true /\ allWhiteSpace post = true
           /\ startsWithWhiteSpace r = false /\ endsWithWhiteSpace r = false)
  /\ (quietPlugins plugins -> height root <= fuel ->
      Forall (fun n => nodeType n = ELEMENT_NODE ->
                       inherited (JS.toLowerCase (nodeName n)) = false)
             (visitedNodes root) ->
      exists r t, convert methods provider plugins fuel html = (Ok r, t)).
Proof.
  intros Htruthy Hroot run.
  assert (Hconvert : convert methods provider plugins fuel html
                     = finish methods run).
  { unfold convert. rewrite Htruthy, Hroot. reflexivity. }
  split; [| split].
  - intros w Hrun. rewrite Hconvert, Hrun. reflexivity.
  - intros r t H. rewrite Hconvert in H.
    apply finish_Ok in H as (w & Hrun & -> & ->).
    destruct (trim_middle (buffer (append methods EmptyString (conv w))))
      as (pre & post & Hmid & Hpre & Hpost).
    destruct (trim_clean (buffer (append methods EmptyString (conv w))))
      as [Hstart Hend].
    exists w, pre, post. repeat split; assumption.
  - intros Hquiet Hheight _.
    destruct (succeeds_convertRoot methods plugins Hquiet fuel root Hheight
                (initialWorld methods events)) as ([] & w & Hrun).
    rewrite Hconvert. fold run in Hrun. rewrite Hrun.
    eexists _, _. reflexivity.
Qed.

(** C8. A string makes [convert] traverse a container made by
    [createElement('div')] whose [innerHTML] has been set to that very string;
    an element is traversed itself.  In a conversion that returns, the visit
    of that root is what follows the calls of [beforeAll]. *)
Theorem root_of_conversion (fuel : nat) :
  (forall s,
      s <> EmptyString ->
      let container :=
        setInnerHTML (parseFragment provider) s (createElement provider "div") in
      childNodes container = parseFragment provider s
      /\ rootOf provider (HtmlString s) = Some (container, [EvInnerHTML s])
      /\ convert methods provider plugins fuel (HtmlString s)
         = finish methods (convertRoot methods plugins fuel container
                             (initialWorld methods [EvInnerHTML s])))
  /\ (forall el,
         rootOf provider (HtmlElement el) = Some (el, [])
         /\ convert methods provider plugins fuel (HtmlElement el)
            = finish methods (convertRoot methods plugins fuel el
                                (initialWorld methods [])))
  /\ (forall html r t,
         truthy html = true ->
         convert methods provider plugins fuel html = (Ok r, t) ->
         exists root start id calls rest,
           rootOf provider html = Some (root, start)
           /\ t = start ++ calls ++ EvVisit id root :: rest
           /\ forall pid,
               count (isBeforeAll pid) calls = entriesOf pid plugins
               /\ count (isBeforeAll pid) rest = 0).
Proof.
  split; [| split].
  - intros s Hs container. split; [reflexivity |]. split; [reflexivity |].
    unfold convert. destruct s as [| c s]; [contradiction Hs; reflexivity |].
    reflexivity.
  - intros el. split; reflexivity.
  - intros html r t Htruthy H.
    destruct (convert_Ok_phases methods provider plugins fuel html r t
                Htruthy H)
      as (root & start & id & evB & evT & evA & Hroot & Ht & Hcount).
    exists root, start, id, evB, (evT ++ evA).
    split; [exact Hroot |]. split; [exact Ht |].
    intros pid.
    destruct (Hcount pid) as (B0 & A0 & B1 & A1 & B2 & A2 & B3 & A3).
    rewrite count_app. split; lia.
Qed.

End Result.

(* ================================================================= *)
(** * The engine at work *)

(** [<p>Hello <b>World</b></p>] with [StrongPlugin]. *)
Example hello_world :
  fst (convert Simple.methods Simple.provider Sample.strongOnly 4
               (HtmlElement Sample.paragraph))
  = Ok "Hello **World**".
Proof. reflexivity. Qed.

(** A frame is converted by its plugin: the nested document is written, the
    frame's own children are not, and the window is put back. *)
Example frame_converted :
  let run := convertElement Simple.methods Sample.frames 4
                            (Some Sample.iframe) Sample.start in
  fst run = Ok tt
  /\ buffer (conv (snd run)) = "inside"
  /\ window (conv (snd run)) = window (conv Sample.start).
Proof. repeat split. Qed.

(** A plugin registered for a tag that is taken replaces the earlier plugin
    for that tag only. *)
Example register_overrides_conflicts :
  map (fun entry => (fst entry, Plugin.pluginId (snd entry)))
      (register (Plugin.base 2 ["x"]) (register (Plugin.base 1 ["x"; "y"]) []))
  = [("x", 2); ("y", 1)].
Proof. reflexivity. Qed.

(** The stack runs out on a document deeper than the fuel. *)
Example stack_exhausted :
  fst (convert Simple.methods Simple.provider Sample.strongOnly 2
               (HtmlElement Sample.paragraph))
  = Throw RangeError.
Proof. reflexivity. Qed.

(** C1 as stated fails: the [span] inside the [div] has a plugin whose
    [convert] throws; the error leaves [convertElement] before the [after] of
    the plugin matched by the [div] is called, though its [before] was. *)
Lemma after_skipped_when_descendant_throws :
  let run := convertElement Simple.methods Sample.divAndSpan 4
                            (Some Sample.divWithSpan) Sample.start in
  matched Sample.divAndSpan Sample.divWithSpan Sample.outer
  /\ fst run = Throw (Thrown "Error")
  /\ count (isBefore 0) (trace (snd run)) = 1
  /\ count (isAfter 0) (trace (snd run)) = 0.
Proof. repeat split. Qed.

Lemma before_after_paired_witness :
  let w' := snd (convertElement Simple.methods Sample.frames 4
                                (Some Sample.iframe) Sample.start) in
  matched Sample.frames Sample.iframe (FramePlugin 3)
  /\ exists events mid post,
      trace w' = trace Sample.start ++ events
      /\ events = EvVisit 0 Sample.iframe :: EvBefore 0 3
                  :: mid ++ EvAfter 0 3 :: post
      /\ count (isBefore 0) events = 1
      /\ count (isAfter 0) events = 1
      /\ count (isAfter 0) mid = 0
      /\ count (isBefore 0) post = 0.
Proof.
  assert (Hmatched : matched Sample.frames Sample.iframe (FramePlugin 3))
    by (repeat split).
  split; [exact Hmatched |].
  apply (before_after_paired Simple.methods Sample.frames 3 Sample.iframe
           (FramePlugin 3) Sample.start _ Hmatched).
  reflexivity.
Defined.



(** C3 as stated fails: [StrongPlugin] alone is registered; it declares two
    tag names, and one conversion calls its [beforeAll] twice and its
    [afterAll] twice. *)
Lemma beforeAll_twice_for_two_tag_names :
  let run := convert Simple.methods Simple.provider Sample.strongOnly 4
                     (HtmlElement Sample.paragraph) in
  Sample.strongOnly = register Sample.strong []
  /\ Plugin.getTagNames Sample.strong = ["b"; "strong"]
  /\ fst run = Ok "Hello **World**"
  /\ count (isBeforeAll 1) (snd run) = 2
  /\ count (isAfterAll 1) (snd run) = 2.
Proof. repeat split. Qed.

Lemma beforeAll_afterAll_once_per_entry_witness :
  let html := HtmlElement Sample.paragraph in
  let t := snd (convert Simple.methods Simple.provider Sample.strongOnly 4
                        html) in
  truthy html = true
  /\ exists root start id evB evT evA,
      rootOf Simple.provider html = Some (root, start)
      /\ t = start ++ evB ++ EvVisit id root :: evT ++ evA
      /\ forall pid,
          count (isBeforeAll pid) evB = entriesOf pid Sample.strongOnly
          /\ count (isAfterAll pid) evB = 0
          /\ count (isBeforeAll pid) evT = 0
          /\ count (isAfterAll pid) evT = 0
          /\ count (isBeforeAll pid) evA = 0
          /\ count (isAfterAll pid) evA = entriesOf pid Sample.strongOnly
          /\ count (isBeforeAll pid) t = entriesOf pid Sample.strongOnly
          /\ count (isAfterAll pid) t = entriesOf pid Sample.strongOnly.
Proof.
  intros html t. split; [reflexivity |].
  apply (beforeAll_afterAll_once_per_entry Simple.methods Simple.provider
           Sample.strongOnly 4 html "Hello **World**" t eq_refl).
  reflexivity.
Defined.

Lemma invisible_element_skipped_witness :
  nodeType Sample.hidden = ELEMENT_NODE
  /\ getPropertyValue (computedStyle Sample.hidden) "display" = "none"
  /\ convertElement Simple.methods Sample.divAndSpan 4 (Some Sample.hidden)
                    Sample.start
     = (Ok tt, visited Sample.hidden Sample.start)
  /\ conv (visited Sample.hidden Sample.start) = conv Sample.start
  /\ trace (visited Sample.hidden Sample.start)
     = trace Sample.start ++ [EvVisit (nextId Sample.start) Sample.hidden].
Proof.
  split; [reflexivity |]. split; [reflexivity |].
  apply (invisible_element_skipped Simple.methods Sample.divAndSpan 3
           Sample.hidden Sample.start eq_refl).
  left. reflexivity.
Defined.

Lemma text_node_written_by_mode_witness :
  nodeType Sample.ticked = TEXT_NODE
  /\ convertElement Simple.methods Sample.strongOnly 4 (Some Sample.ticked)
                    Sample.inCode
     = (Ok tt,
        mkWorld (output Simple.methods (String "a" (String JS.backslash "`b"))
                        false (conv Sample.inCode))
                [EvVisit 0 Sample.ticked] 1).
Proof.
  split; [reflexivity |].
  exact (proj1 (text_node_written_by_mode Simple.methods Sample.strongOnly 3
                  Sample.ticked Sample.inCode eq_refl)).
Defined.

Lemma falsy_input_empty_result_witness :
  truthy (HtmlString EmptyString) = false
  /\ convert Simple.methods Simple.provider Sample.strongOnly 0
             (HtmlString EmptyString)
     = (Ok EmptyString, []).
Proof.
  split; [reflexivity |].
  apply (falsy_input_empty_result Simple.methods Simple.provider
           Sample.strongOnly 0 (HtmlString EmptyString)).
  reflexivity.
Defined.

(** C7 as stated fails: the [div] with a [span] in it is a non-empty input,
    the [convert] of the plugin for [span] throws, and [convert] throws in
    turn: no buffer is flushed, no text is returned. *)
Lemma nonempty_input_without_result :
  let html := HtmlElement Sample.divWithSpan in
  let r := convert Simple.methods Simple.provider Sample.divAndSpan 4 html in
  truthy html = true
  /\ fst r = Throw (Thrown "Error")
  /\ forall text, fst r <> Ok text.
Proof.
  split; [reflexivity |]. split; [reflexivity |].
  intros text H. discriminate H.
Qed.

Lemma convert_flushes_and_trims_witness :
  let html := HtmlString "  Hello  " in
  let root := setInnerHTML (parseFragment Simple.provider) "  Hello  "
                           (createElement Simple.provider "div") in
  truthy html = true
  /\ rootOf Simple.provider html = Some (root, [EvInnerHTML "  Hello  "])
  /\ fst (convert Simple.methods Simple.provider Sample.strongOnly 4 html)
     = Ok "Hello".
Proof.
  intros html root.
  split; [reflexivity |]. split; [reflexivity |].
  destruct (convert_flushes_and_trims Simple.methods Simple.provider
              Sample.strongOnly 4 html root [EvInnerHTML "  Hello  "]
              eq_refl eq_refl) as [Hreturn _].
  rewrite (Hreturn _ eq_refl). reflexivity.
Defined.

Lemma root_of_conversion_witness :
  convert Simple.methods Simple.provider Sample.strongOnly 4
          (HtmlString "Hello")
  = finish Simple.methods
      (convertRoot Simple.methods Sample.strongOnly 4
         (elementNode "DIV" [] [textNode "Hello"])
         (initialWorld Simple.methods [EvInnerHTML "Hello"])).
Proof.
  destruct (root_of_conversion Simple.methods Simple.provider
              Sample.strongOnly 4) as [Hstring _].
  destruct (Hstring "Hello") as (_ & _ & Hconvert); [discriminate |].
  exact Hconvert.
Defined.

Lemma other_node_ignored_witness :
  nodeType Sample.remark <> ELEMENT_NODE
  /\ nodeType Sample.remark <> TEXT_NODE
  /\ convertElement Simple.methods Sample.strongOnly 4 (Some Sample.remark)
                    Sample.start
     = (Ok tt, visited Sample.remark Sample.start).
Proof.
  assert (He : nodeType Sample.remark <> ELEMENT_NODE) by discriminate.
  assert (Ht : nodeType Sample.remark <> TEXT_NODE) by discriminate.
  split; [exact He |]. split; [exact Ht |].
  exact (proj1 (other_node_ignored Simple.methods Sample.strongOnly 3
                  Sample.remark Sample.start He Ht)).
Defined.

Lemma null_text_is_empty_witness :
  nodeType Sample.nullText = TEXT_NODE
  /\ nodeValue Sample.nullText = None
  /\ convertElement Simple.methods Sample.strongOnly 4 (Some Sample.nullText)
                    Sample.start
     = (Ok tt,
        mkWorld (writeText Simple.methods EmptyString (conv Sample.start))
                [EvVisit 0 Sample.nullText] 1).
Proof.
  split; [reflexivity |]. split; [reflexivity |].
  exact (proj2 (null_text_is_empty Simple.methods Sample.strongOnly 3
                  Sample.nullText Sample.start eq_refl eq_refl)).
Defined.

(* ================================================================= *)
(** * Further properties *)

(** ** Escaping backticks *)

Lemma escapeBackticks_head (s : string) :
  match JS.escapeBackticks s with
  | String c _ => Ascii.eqb c JS.backtick = false
  | EmptyString => True
  end.
Proof.
  destruct s as [| c s]; simpl; [exact I |].
  destruct (Ascii.eqb c JS.backtick) eqn:E; [reflexivity | exact E].
Qed.

Lemma unescape_escape (s : string) :
  unescapeBackticks (JS.escapeBackticks s) = s.
Proof.
  induction s as [| c s IH]; [reflexivity |].
  cbn [JS.escapeBackticks].
  destruct (Ascii.eqb c JS.backtick) eqn:E.
  - apply Ascii.eqb_eq in E. subst c.
    cbn [unescapeBackticks]. rewrite !Ascii.eqb_refl. simpl. rewrite IH.
    reflexivity.
  - pose proof (escapeBackticks_head s) as Hhead.
    cbn [unescapeBackticks].
    destruct (JS.escapeBackticks s) as [| d rest] eqn:Es.
    + simpl in IH. subst s. reflexivity.
    + rewrite Hhead, andb_false_r. rewrite IH. reflexivity.
Qed.

(** X8.  Escaping loses nothing: putting a backtick back for every backslash
    followed by a backtick gives the text that was escaped, so that two
    texts with the same escaped form are the same text. *)
Theorem escapeBackticks_round_trip (s : string) :
  unescapeBackticks (JS.escapeBackticks s) = s
  /\ forall t, JS.escapeBackticks s = JS.escapeBackticks t -> s = t.
Proof.
  split; [apply unescape_escape |].
  intros t H. rewrite <- (unescape_escape s), <- (unescape_escape t), H.
  reflexivity.
Qed.

(** X9.  In an escaped text every backtick comes right after a backslash; the
    text has grown by one character for each backtick it had, and a text
    without a backtick is left as it is. *)
Theorem escapeBackticks_guards (s : string) :
  backticksGuarded false (JS.escapeBackticks s) = true
  /\ String.length (JS.escapeBackticks s) = String.length s + countBackticks s
  /\ (countBackticks s = 0 -> JS.escapeBackticks s = s).
Proof.
  split; [| split].
  - generalize false. induction s as [| c s IH]; intros b; [reflexivity |].
    cbn [JS.escapeBackticks].
    destruct (Ascii.eqb c JS.backtick) eqn:E.
    + simpl. apply IH.
    + cbn [backticksGuarded]. rewrite E. apply IH.
  - induction s as [| c s IH]; [reflexivity |].
    cbn [JS.escapeBackticks countBackticks].
    destruct (Ascii.eqb c JS.backtick); simpl; rewrite IH; lia.
  - induction s as [| c s IH]; [reflexivity |].
    cbn [JS.escapeBackticks countBackticks].
    destruct (Ascii.eqb c JS.backtick); simpl; intros H;
      [discriminate H | rewrite IH by exact H; reflexivity].
Qed.

Lemma escapeBackticks_guards_witness :
  countBackticks "plain" = 0 /\ JS.escapeBackticks "plain" = "plain".
Proof.
  split; [reflexivity |].
  apply (proj2 (proj2 (escapeBackticks_guards "plain"))). reflexivity.
Defined.

(** ** The traversal when no plugin takes part *)

Lemma visitedNodes_unfold (n : Node) :
  visitedNodes n
  = n :: (if (nodeType n =? ELEMENT_NODE)%Z && isVisible n
          then visitedAll (childNodes n) else []).
Proof.
  destruct n as [ty name value style children win]. simpl.
  destruct ((ty =? ELEMENT_NODE)%Z && _); reflexivity.
Qed.

Lemma numbered_app (start : nat) (a b : list Node) :
  numbered start (a ++ b) = numbered start a ++ numbered (length a + start) b.
Proof.
  revert start. induction a as [| n a IH]; intros start; simpl.
  - reflexivity.
  - rewrite IH. repeat f_equal. lia.
Qed.

Lemma traversed_app (methods : ConversionMethods) (a b : list Node)
      (w : World) :
  traversed methods (a ++ b) w = traversed methods b (traversed methods a w).
Proof.
  unfold traversed. simpl. f_equal.
  - apply fold_left_app.
  - rewrite numbered_app, app_assoc. reflexivity.
  - rewrite length_app. lia.
Qed.

Lemma traversed_nil (methods : ConversionMethods) (w : World) :
  traversed methods [] w = w.
Proof.
  unfold traversed. simpl. rewrite app_nil_r. destruct w; reflexivity.
Qed.

Section Default.

Variable methods : ConversionMethods.
Variable plugins : Plugins.

Lemma visitInOrder_unmatched (fuel : nat) (nodes : list Node) :
  (forall n w,
      In n nodes ->
      Forall (unmatched plugins) (visitedNodes n) ->
      convertElement methods plugins fuel (Some n) w
      = (Ok tt, traversed methods (visitedNodes n) w)) ->
  forall w,
    Forall (unmatched plugins) (visitedAll nodes) ->
    visitInOrder (convertElement methods plugins fuel) nodes w
    = (Ok tt, traversed methods (visitedAll nodes) w).
Proof.
  induction nodes as [| c cs IH]; intros Hvisit w Hun.
  - simpl. rewrite traversed_nil. reflexivity.
  - unfold visitedAll in *. simpl in Hun |- *.
    apply Forall_app in Hun as [Hc Hcs].
    rewrite (bind_step _ _ _ _ _ (Hvisit c w (or_introl eq_refl) Hc)).
    rewrite IH; [| | exact Hcs].
    + rewrite traversed_app. reflexivity.
    + intros n w0 Hn. apply Hvisit. right. exact Hn.
Qed.

Lemma convertElement_unmatched_tree (fuel : nat) :
  forall n w,
    height n <= fuel ->
    Forall (unmatched plugins) (visitedNodes n) ->
    convertElement methods plugins fuel (Some n) w
    = (Ok tt, traversed methods (visitedNodes n) w).
Proof.
  induction fuel as [| fuel IH]; intros n w Hheight Hun.
  - destruct n; simpl in Hheight; lia.
  - rewrite visitedNodes_unfold in Hun |- *.
    destruct (nodeType n =? ELEMENT_NODE)%Z eqn:Etype.
    + apply Z.eqb_eq in Etype.
      destruct (isVisible n) eqn:Evisible; cbn [andb] in Hun |- *.
      * inversion Hun as [| ? ? Hn Hchildren]; subst.
        rewrite (convertElement_unmatched methods plugins fuel n w Etype
                   Evisible (proj1 (Hn Etype))).
        rewrite (visitInOrder_unmatched fuel (childNodes n)).
        -- change (n :: visitedAll (childNodes n))
             with ([n] ++ visitedAll (childNodes n)).
           rewrite traversed_app. f_equal. f_equal.
           unfold traversed, entered, applyNode. simpl.
           rewrite Etype, Evisible. reflexivity.
        -- intros c w0 Hc Hunc. apply IH; [| exact Hunc].
           apply height_child in Hc. lia.
        -- exact Hchildren.
      * simpl. unfold bind, enter, convertNode, convertElementNode.
        rewrite Etype, Evisible. simpl.
        unfold traversed, applyNode. simpl. rewrite Etype, Evisible.
        reflexivity.
    + cbn [andb]. simpl. unfold bind, enter, convertNode.
      rewrite Etype. unfold traversed, applyNode. simpl. rewrite Etype.
      destruct (nodeType n =? TEXT_NODE)%Z.
      * rewrite convertText_writes. reflexivity.
      * reflexivity.
Qed.

(** X1.  Where the read of the registry finds nothing for any element met (no
    plugin is registered for its tag, and its tag is not the name of a member
    the registry inherits, such as [constructor]), [convertElement]
    with a stack as deep as the tree completes, and it has been called on the
    nodes in document order, depth first, going below visible elements only:
    the visits are exactly those of [visitedNodes], numbered in that order,
    and the conversion is the one these nodes give one after the other, each
    visible element becoming the current element and each text node being
    written under the mode of the conversion. *)
Theorem default_traversal_in_document_order (fuel : nat) (n : Node)
        (w : World) :
  height n <= fuel ->
  Forall (unmatched plugins) (visitedNodes n) ->
  convertElement methods plugins fuel (Some n) w
  = (Ok tt,
     mkWorld (fold_left (applyNode methods) (visitedNodes n) (conv w))
             (trace w ++ numbered (nextId w) (visitedNodes n))
             (length (visitedNodes n) + nextId w)).
Proof. apply convertElement_unmatched_tree. Qed.

End Default.

Lemma default_traversal_in_document_order_witness :
  height Sample.paragraph <= 3
  /\ Forall (unmatched Sample.preOnly) (visitedNodes Sample.paragraph)
  /\ fst (convertElement Simple.methods Sample.preOnly 3
                         (Some Sample.paragraph) Sample.start) = Ok tt
  /\ buffer (conv (snd (convertElement Simple.methods Sample.preOnly 3
                          (Some Sample.paragraph) Sample.start)))
     = "Hello World".
Proof.
  assert (Hheight : height Sample.paragraph <= 3) by (simpl; lia).
  assert (Hun : Forall (unmatched Sample.preOnly)
                       (visitedNodes Sample.paragraph)).
  { repeat constructor; intros H; try discriminate H; split; reflexivity. }
  split; [exact Hheight |]. split; [exact Hun |].
  rewrite (default_traversal_in_document_order Simple.methods Sample.preOnly
             3 Sample.paragraph Sample.start Hheight Hun).
  split; reflexivity.
Defined.

(** ** The calls of [before] and [after] are nested *)

Lemma openCalls_app (stack : list (nat * nat)) (a b : list Event) :
  openCalls stack (a ++ b)
  = match openCalls stack a with
    | Some stack' => openCalls stack' b
    | None => None
    end.
Proof.
  revert stack. induction a as [| ev a IH]; intros stack; simpl.
  - reflexivity.
  - destruct ev; try apply IH.
    destruct stack as [| [id' pid'] stack']; [reflexivity |].
    destruct (Nat.eqb id id' && Nat.eqb pid pid'); [apply IH | reflexivity].
Qed.

Lemma nests_frame {A : Type} (pre post rest : list (nat * nat)) (m : M A) :
  nests pre post m -> nests (pre ++ rest) (post ++ rest) m.
Proof.
  intros Hm stack w o w' H.
  destruct (Hm (rest ++ stack) w o w' H) as (events & extra & T & O & K).
  exists events, (extra ++ rest). split; [exact T |]. split.
  - rewrite <- !app_assoc. exact O.
  - intros a Ha. rewrite (K a Ha). reflexivity.
Qed.

Lemma nests_ret {A : Type} (a : A) : nests [] [] (ret a).
Proof.
  intros stack w o w' H. inversion H; subst. exists [], [].
  rewrite app_nil_r. repeat split.
Qed.

Lemma nests_throw {A : Type} (post : list (nat * nat)) (e : Error) :
  nests [] post (@throw A e).
Proof.
  intros stack w o w' H. inversion H; subst. exists [], [].
  rewrite app_nil_r. repeat split. intros a Ha. discriminate Ha.
Qed.

Lemma nests_modify (f : Conversion -> Conversion) : nests [] [] (modify f).
Proof.
  intros stack w o w' H. inversion H; subst. exists [], []. simpl.
  rewrite app_nil_r. repeat split.
Qed.

Lemma nests_getConversion : nests [] [] getConversion.
Proof.
  intros stack w o w' H. inversion H; subst. exists [], [].
  rewrite app_nil_r. repeat split.
Qed.

Lemma nests_enter (el : Node) : nests [] [] (enter el).
Proof.
  intros stack w o w' H. inversion H; subst.
  exists [EvVisit (nextId w) el], []. repeat split.
Qed.

Lemma nests_log_before (id pid : nat) :
  nests [] [(id, pid)] (log (EvBefore id pid)).
Proof.
  intros stack w o w' H. inversion H; subst.
  exists [EvBefore id pid], [(id, pid)]. repeat split.
Qed.

Lemma nests_log_after (id pid : nat) :
  nests [(id, pid)] [] (log (EvAfter id pid)).
Proof.
  intros stack w o w' H. inversion H; subst.
  exists [EvAfter id pid], []. simpl. rewrite !Nat.eqb_refl. repeat split.
Qed.

Lemma nests_log_convert (id pid : nat) : nests [] [] (log (EvConvert id pid)).
Proof.
  intros stack w o w' H. inversion H; subst.
  exists [EvConvert id pid], []. repeat split.
Qed.

Lemma nests_log_beforeAll (tag : string) (pid : nat) :
  nests [] [] (log (EvBeforeAll tag pid)).
Proof.
  intros stack w o w' H. inversion H; subst.
  exists [EvBeforeAll tag pid], []. repeat split.
Qed.

Lemma nests_log_afterAll (tag : string) (pid : nat) :
  nests [] [] (log (EvAfterAll tag pid)).
Proof.
  intros stack w o w' H. inversion H; subst.
  exists [EvAfterAll tag pid], []. repeat split.
Qed.

Lemma nests_bind {A B : Type} (pre mid post : list (nat * nat)) (m : M A)
      (f : A -> M B) :
  nests pre mid m -> (forall a, nests mid post (f a)) ->
  nests pre post (bind m f).
Proof.
  intros Hm Hf stack w o w' H.
  apply bind_inv in H as [(a & w1 & H1 & H2) | (e & H1 & ->)].
  - destruct (Hm stack _ _ _ H1) as (e1 & x1 & T1 & O1 & K1).
    rewrite (K1 a eq_refl) in O1.
    destruct (Hf a stack _ _ _ H2) as (e2 & x2 & T2 & O2 & K2).
    exists (e1 ++ e2), x2.
    split; [rewrite T2, T1, app_assoc; reflexivity |].
    split; [rewrite openCalls_app, O1; exact O2 | exact K2].
  - destruct (Hm stack _ _ _ H1) as (e1 & x1 & T1 & O1 & K1).
    exists e1, x1. split; [exact T1 |]. split; [exact O1 |].
    intros b Hb. discriminate Hb.
Qed.

Lemma nests_runHook {A : Type} (visit : option Node -> M unit)
      (p : HookProg A) :
  propagates p ->
  (forall n, nests [] [] (visit n)) -> nests [] [] (runHook visit p).
Proof.
  intros Hp Hvisit.
  induction Hp as [a | msg | k _ IH | c k _ IH | n k _ IH]; simpl.
  - apply nests_ret.
  - apply nests_throw.
  - intros stack w o w' H. exact (IH (conv w) stack w o w' H).
  - intros stack w o w' H. exact (IH stack _ o w' H).
  - eapply nests_bind; [apply Hvisit | intros _; exact IH].
Qed.

Lemma nests_forChildNodes (visit : option Node -> M unit) (nodes : list Node)
      (remaining i : nat) :
  (forall n, nests [] [] (visit n)) ->
  nests [] [] (forChildNodes visit nodes remaining i).
Proof.
  intros Hvisit. revert i.
  induction remaining as [| k IH]; intros i; simpl.
  - apply nests_ret.
  - eapply nests_bind; [apply Hvisit | intros _; apply IH].
Qed.

Section Nesting.

Variable methods : ConversionMethods.
Variable provider : DOMProvider.
Variable plugins : Plugins.

Hypothesis plugins_propagate : propagatingPlugins plugins.

Lemma registered_propagates (key : string) (p : Plugin) :
  JS.getProperty key plugins = Some p -> propagatingPlugin p.
Proof.
  intros H. apply getProperty_In in H as (k & Hk).
  unfold propagatingPlugins in plugins_propagate.
  rewrite Forall_forall in plugins_propagate.
  exact (plugins_propagate _ Hk).
Qed.

Lemma nests_convertElementNode (visit : option Node -> M unit) (id : nat)
      (el : Node) :
  (forall n, nests [] [] (visit n)) ->
  nests [] [] (convertElementNode plugins visit id el).
Proof.
  intros Hvisit. unfold convertElementNode.
  destruct (negb (isVisible el)); [apply nests_ret |].
  eapply nests_bind; [apply nests_modify |]. intros _.
  eapply nests_bind; [apply nests_getConversion |]. intros conversion.
  assert (Hloop : forall v, nests [] []
            (if JS.ToBoolean v then convertChildNodes visit (childNodes el)
             else ret tt)).
  { intros v. destruct (JS.ToBoolean v);
      [apply nests_forChildNodes, Hvisit | apply nests_ret]. }
  destruct (JS.getProperty (tagName conversion) plugins) as [p |] eqn:Hp.
  - destruct (registered_propagates _ _ Hp) as (_ & Hb & Hc & Ha & _).
    pose (call := (id, Plugin.pluginId p)).
    apply (nests_bind [] [call] []).
    { unfold callBeforeAndConvert.
      apply (nests_bind [] [call] [call]); [apply nests_log_before |].
      intros _.
      apply (nests_bind [call] [call] [call]).
      { apply (nests_frame [] [] [call]), nests_runHook; [apply Hb | exact Hvisit]. }
      intros context1.
      apply (nests_bind [call] [call] [call]).
      { apply (nests_frame [] [] [call]), nests_log_convert. }
      intros _.
      apply (nests_frame [] [] [call]), nests_runHook; [apply Hc | exact Hvisit]. }
    intros [convertChildren context'].
    apply (nests_bind [call] [call] []).
    { apply (nests_frame [] [] [call]), Hloop. }
    intros _. unfold callAfter.
    apply (nests_bind [call] [] []); [apply nests_log_after |].
    intros _. apply nests_runHook; [apply Ha | exact Hvisit].
  - eapply nests_bind; [apply nests_ret |].
    intros [convertChildren context'].
    eapply nests_bind; [apply Hloop |]. intros _. apply nests_ret.
Qed.

Lemma nests_convertElement (fuel : nat) (element : option Node) :
  nests [] [] (convertElement methods plugins fuel element).
Proof.
  revert element. induction fuel as [| fuel IH]; intros element.
  - apply nests_throw.
  - destruct element as [el |]; [| apply nests_ret]. simpl.
    eapply nests_bind; [apply nests_enter |]. intros id.
    unfold convertNode.
    destruct (nodeType el =? ELEMENT_NODE)%Z.
    + apply nests_convertElementNode, IH.
    + destruct (nodeType el =? TEXT_NODE)%Z; [| apply nests_ret].
      intros stack w o w' H. rewrite convertText_writes in H.
      inversion H; subst. exists [], []. simpl. rewrite app_nil_r.
      repeat split.
Qed.

Lemma nests_convertRoot (fuel : nat) (root : Node) :
  nests [] [] (convertRoot methods plugins fuel root).
Proof.
  unfold convertRoot.
  assert (HB : forall entries : Plugins,
             propagatingPlugins entries ->
             nests [] [] (forOwn entries (callBeforeAll methods plugins fuel))).
  { induction 1 as [| [tag p] rest Hp _ IH]; simpl; [apply nests_ret |].
    eapply nests_bind; [| intros _; exact IH].
    unfold callBeforeAll.
    eapply nests_bind; [apply nests_log_beforeAll |]. intros _.
    apply nests_runHook; [apply Hp | apply nests_convertElement]. }
  assert (HA : forall entries : Plugins,
             propagatingPlugins entries ->
             nests [] [] (forOwn entries (callAfterAll methods plugins fuel))).
  { induction 1 as [| [tag p] rest Hp _ IH]; simpl; [apply nests_ret |].
    eapply nests_bind; [| intros _; exact IH].
    unfold callAfterAll.
    eapply nests_bind; [apply nests_log_afterAll |]. intros _.
    apply nests_runHook; [apply Hp | apply nests_convertElement]. }
  eapply nests_bind; [apply HB, plugins_propagate |]. intros _.
  eapply nests_bind; [apply nests_convertElement |]. intros _.
  apply HA, plugins_propagate.
Qed.

End Nesting.

(** X2.  With plugins whose hooks let the errors of the [convertElement] calls
    they make go through (none wraps such a call in [try]), and however a
    conversion ends, [after] is only ever called for the innermost element
    whose [before] was called and whose [after] was not yet, with the same
    plugin: the calls are nested like brackets.  When [convert] or a call of
    [convertElement] returns, no call is left open; when it throws, the
    elements left open are those the error passed through. *)
Theorem hooks_well_nested (methods : ConversionMethods)
        (provider : DOMProvider) (plugins : Plugins) (fuel : nat) :
  propagatingPlugins plugins ->
  (forall html,
      let r := convert methods provider plugins fuel html in
      exists open,
        openCalls [] (snd r) = Some open
        /\ forall s, fst r = Ok s -> open = [])
  /\ (forall element w,
         let r := convertElement methods plugins fuel element w in
         exists events open,
           trace (snd r) = trace w ++ events
           /\ openCalls [] events = Some open
           /\ (fst r = Ok tt -> open = [])).
Proof.
  intros Hpropagate. split.
  - intros html r. subst r. unfold convert.
    destruct (truthy html); simpl negb; cbv iota.
    2:{ exists []. split; [reflexivity | intros; reflexivity]. }
    destruct (rootOf provider html) as [[root start] |] eqn:Hroot.
    2:{ exists []. split; [reflexivity | intros; reflexivity]. }
    assert (Hstart : forall events,
               openCalls [] (start ++ events) = openCalls [] events).
    { destruct html; simpl in Hroot; inversion Hroot; subst; reflexivity. }
    destruct (convertRoot methods plugins fuel root (initialWorld methods start))
      as [o w'] eqn:Hrun.
    destruct (nests_convertRoot methods plugins Hpropagate fuel root
                [] _ _ _ Hrun)
      as (events & extra & T & O & K).
    simpl in T, O. rewrite app_nil_r in O.
    exists extra. destruct o as [[] | e]; simpl; rewrite T, Hstart.
    + split; [exact O |]. intros _ _. apply (K tt). reflexivity.
    + split; [exact O |]. intros s Hs. discriminate Hs.
  - intros element w r. subst r.
    destruct (convertElement methods plugins fuel element w) as [o w'] eqn:Hrun.
    destruct (nests_convertElement methods plugins Hpropagate fuel element
                [] _ _ _ Hrun)
      as (events & extra & T & O & K).
    simpl in O. rewrite app_nil_r in O. exists events, extra. simpl.
    split; [exact T |]. split; [exact O |].
    intros Ho. apply (K tt). exact Ho.
Qed.

Lemma frames_propagate : propagatingPlugins Sample.frames.
Proof.
  assert (H : propagatingPlugin (FramePlugin 3)).
  { repeat split; try intros context; simpl; repeat constructor.
    intros c. destruct (element c) as [el |]; [| constructor].
    destruct (contentWindow el); repeat constructor. }
  apply Forall_cons; [exact H |]. apply Forall_cons; [exact H |].
  apply Forall_nil.
Qed.

Lemma hooks_well_nested_witness :
  let r := convertElement Simple.methods Sample.frames 4 (Some Sample.iframe)
                          Sample.start in
  propagatingPlugins Sample.frames
  /\ exists events open,
      trace (snd r) = trace Sample.start ++ events
      /\ openCalls [] events = Some open
      /\ (fst r = Ok tt -> open = []).
Proof.
  intros r. split; [exact frames_propagate |].
  exact (proj2 (hooks_well_nested Simple.methods Simple.provider Sample.frames
                  4 frames_propagate) (Some Sample.iframe) Sample.start).
Defined.

(** A hook that catches what a nested call throws gets its [after] called
    while the [before] of the element that threw is still waiting: the
    nesting is that of hooks that do not catch. *)
Example catching_hook_leaves_a_call_open :
  let r := convertElement Simple.methods catchingAndThrowing 4
                          (Some Sample.divWithSpan) Sample.start in
  fst r = Ok tt
  /\ openCalls [] (trace (snd r)) = None
  /\ count (isBefore 1) (trace (snd r)) = 1
  /\ count (isAfter 1) (trace (snd r)) = 0.
Proof. repeat split. Qed.

(** ** Errors on the way *)

Lemma similar_forOwn {V : Type} (obj : JS.Object V)
      (f1 f2 : string -> V -> M unit) :
  (forall key value, similar (f1 key value) (f2 key value)) ->
  similar (forOwn obj f1) (forOwn obj f2).
Proof.
  intros Hf. induction obj as [| [key value] rest IH]; simpl.
  - apply similar_ret.
  - apply similar_bind; [apply Hf | intros _; exact IH].
Qed.

Section Errors.

Variable methods : ConversionMethods.
Variable provider : DOMProvider.
Variable plugins : Plugins.




Lemma similar_convertRoot (fuel : nat) (root : Node) :
  similar (convertRoot methods plugins fuel root)
          (convertRoot methods plugins fuel root).
Proof.
  unfold convertRoot.
  apply similar_bind.
  { apply similar_forOwn. intros tag p. unfold callBeforeAll.
    apply similar_bind; [apply similar_log |]. intros _.
    apply similar_runHook, convertElement_ghost. }
  intros _. apply similar_bind; [apply convertElement_ghost |].
  intros _. apply similar_forOwn. intros tag p. unfold callAfterAll.
  apply similar_bind; [apply similar_log |]. intros _.
  apply similar_runHook, convertElement_ghost.
Qed.

(** X4.  Converting a non-empty string gives what converting the container does
    that holds the parsed string: the same Markdown or the same error. *)
Theorem string_converts_as_its_container (fuel : nat) (s : string) :
  s <> EmptyString ->
  fst (convert methods provider plugins fuel (HtmlString s))
  = fst (convert methods provider plugins fuel
           (HtmlElement (setInnerHTML (parseFragment provider) s
                                      (createElement provider "div")))).
Proof.
  intros Hs. unfold convert.
  destruct s as [| c s]; [contradiction Hs; reflexivity |].
  cbn [truthy JS.isEmpty negb rootOf].
  set (root := setInnerHTML _ _ _).
  destruct (similar_convertRoot fuel root
              (initialWorld methods [EvInnerHTML (String c s)])
              (initialWorld methods []) eq_refl) as [Ho Hc].
  destruct (convertRoot methods plugins fuel root
              (initialWorld methods [EvInnerHTML (String c s)]))
    as [[[] | e1] w1],
           (convertRoot methods plugins fuel root (initialWorld methods []))
    as [[[] | e2] w2]; simpl in Ho, Hc |- *; try discriminate Ho.
  - rewrite Hc. reflexivity.
  - inversion Ho; reflexivity.
Qed.

End Errors.


Lemma string_converts_as_its_container_witness :
  "Hello" <> EmptyString
  /\ fst (convert Simple.methods Simple.provider Sample.strongOnly 4
                  (HtmlString "Hello"))
     = fst (convert Simple.methods Simple.provider Sample.strongOnly 4
                    (HtmlElement (elementNode "DIV" [] [textNode "Hello"]))).
Proof.
  assert (H : "Hello" <> EmptyString) by discriminate.
  split; [exact H |].
  exact (string_converts_as_its_container Simple.methods Simple.provider
           Sample.strongOnly 4 "Hello" H).
Defined.

(** ** Frames and strong text *)

Section SourcePlugins.

Variable methods : ConversionMethods.
Variable plugins : Plugins.

Lemma frame_visit (fuel pid : nat) (el : Node) (w : World) :
  matched plugins el (FramePlugin pid) ->
  convertElement methods plugins (S fuel) (Some el) w
  = match contentWindow el with
    | Some win =>
        match convertElement methods plugins fuel (body win)
                (mkWorld (set_window (Some win) (set_element el (conv w)))
                         (trace w ++ [EvVisit (nextId w) el;
                                      EvBefore (nextId w) pid;
                                      EvConvert (nextId w) pid])
                         (S (nextId w))) with
        | (Ok _, w2) =>
            (Ok tt,
             mkWorld (set_window (window (conv w)) (conv w2))
                     (trace w2 ++ [EvAfter (nextId w) pid]) (nextId w2))
        | (Throw e, w2) => (Throw e, w2)
        end
    | None =>
        (Ok tt,
         mkWorld (set_element el (conv w))
                 (trace w ++ [EvVisit (nextId w) el; EvBefore (nextId w) pid;
                              EvConvert (nextId w) pid;
                              EvAfter (nextId w) pid])
                 (S (nextId w)))
    end.
Proof.
  intros Hmatched.
  rewrite (convertElement_matched methods plugins fuel el _ w Hmatched).
  unfold callBeforeAndConvert, callAfter, entered.
  unfold bind, log, ret. cbn.
  destruct (contentWindow el) as [win |]; cbn.
  - rewrite <- !app_assoc. cbn [app]. unfold bind, ret.
    destruct (convertElement methods plugins fuel (body win) _)
      as [[[] | e] w2]; cbn; reflexivity.
  - rewrite <- !app_assoc. reflexivity.
Qed.

(** X5.  An element matched by [FramePlugin] is converted by the plugin alone:
    with a content window, the body of the nested document is converted
    while that window is the conversion's window, and the window the
    conversion had is put back afterwards; without one, nothing is converted.
    In both cases the children of the frame element itself are not visited.
    An error below the nested body leaves the visit at once. *)
Theorem frame_converts_nested_document (fuel pid : nat) (el : Node)
        (w : World) :
  matched plugins el (FramePlugin pid) ->
  convertElement methods plugins (S fuel) (Some el) w
  = match contentWindow el with
    | Some win =>
        match convertElement methods plugins fuel (body win)
                (mkWorld (set_window (Some win) (set_element el (conv w)))
                         (trace w ++ [EvVisit (nextId w) el;
                                      EvBefore (nextId w) pid;
                                      EvConvert (nextId w) pid])
                         (S (nextId w))) with
        | (Ok _, w2) =>
            (Ok tt,
             mkWorld (set_window (window (conv w)) (conv w2))
                     (trace w2 ++ [EvAfter (nextId w) pid]) (nextId w2))
        | (Throw e, w2) => (Throw e, w2)
        end
    | None =>
        (Ok tt,
         mkWorld (set_element el (conv w))
                 (trace w ++ [EvVisit (nextId w) el; EvBefore (nextId w) pid;
                              EvConvert (nextId w) pid;
                              EvAfter (nextId w) pid])
                 (S (nextId w)))
    end.
Proof. apply frame_visit. Qed.

(** X6.  Once the visit of an element matched by [FramePlugin] has completed, the
    conversion has the window it had before the visit, whatever the nested
    document did to it. *)
Theorem frame_window_restored (fuel pid : nat) (el : Node) (w w' : World) :
  matched plugins el (FramePlugin pid) ->
  convertElement methods plugins (S fuel) (Some el) w = (Ok tt, w') ->
  window (conv w') = window (conv w).
Proof.
  intros Hmatched H. rewrite (frame_visit fuel pid el w Hmatched) in H.
  destruct (contentWindow el) as [win |].
  - destruct (convertElement methods plugins fuel (body win) _)
      as [[[] | e] w2]; inversion H; subst; reflexivity.
  - inversion H; subst; reflexivity.
Qed.

Lemma strong_visit (fuel pid : nat) (el : Node) (w : World) :
  matched plugins el (StrongPlugin methods pid) ->
  convertElement methods plugins (S fuel) (Some el) w
  = match visitInOrder (convertElement methods plugins fuel) (childNodes el)
            (mkWorld (set_atNoWhiteSpace true
                        (output methods "**" false (set_element el (conv w))))
                     (trace w ++ [EvVisit (nextId w) el;
                                  EvBefore (nextId w) pid;
                                  EvConvert (nextId w) pid])
                     (S (nextId w))) with
    | (Ok _, w2) =>
        (Ok tt,
         mkWorld (output methods "**" false (conv w2))
                 (trace w2 ++ [EvAfter (nextId w) pid]) (nextId w2))
    | (Throw e, w2) => (Throw e, w2)
    end.
Proof.
  intros Hmatched.
  rewrite (convertElement_matched methods plugins fuel el _ w Hmatched).
  unfold callBeforeAndConvert, callAfter, entered.
  unfold bind, log, ret. cbn.
  rewrite <- !app_assoc. cbn [app].
  destruct (visitInOrder (convertElement methods plugins fuel) _ _)
    as [[[] | e] w2]; cbn; reflexivity.
Qed.

(** X7.  An element matched by [StrongPlugin] has its children converted between
    two raw writes of the two asterisks: the first is made, and
    [atNoWhiteSpace] set, before any child is visited; the second is made once
    every child has been converted, and is not made when a child throws. *)
Theorem strong_wraps_children (fuel pid : nat) (el : Node) (w : World) :
  matched plugins el (StrongPlugin methods pid) ->
  convertElement methods plugins (S fuel) (Some el) w
  = match visitInOrder (convertElement methods plugins fuel) (childNodes el)
            (mkWorld (set_atNoWhiteSpace true
                        (output methods "**" false (set_element el (conv w))))
                     (trace w ++ [EvVisit (nextId w) el;
                                  EvBefore (nextId w) pid;
                                  EvConvert (nextId w) pid])
                     (S (nextId w))) with
    | (Ok _, w2) =>
        (Ok tt,
         mkWorld (output methods "**" false (conv w2))
                 (trace w2 ++ [EvAfter (nextId w) pid]) (nextId w2))
    | (Throw e, w2) => (Throw e, w2)
    end.
Proof. apply strong_visit. Qed.

End SourcePlugins.

Lemma frame_converts_nested_document_witness :
  matched Sample.frames Sample.iframe (FramePlugin 3)
  /\ contentWindow Sample.iframe = Some Sample.inner
  /\ buffer (conv (snd (convertElement Simple.methods Sample.frames 4
                          (Some Sample.iframe) Sample.start)))
     = "inside".
Proof.
  assert (Hmatched : matched Sample.frames Sample.iframe (FramePlugin 3))
    by (repeat split).
  split; [exact Hmatched |]. split; [reflexivity |].
  rewrite (frame_converts_nested_document Simple.methods Sample.frames 3 3
             Sample.iframe Sample.start Hmatched).
  reflexivity.
Defined.

Lemma frame_window_restored_witness :
  let w' := snd (convertElement Simple.methods Sample.frames 4
                                (Some Sample.iframe) Sample.start) in
  matched Sample.frames Sample.iframe (FramePlugin 3)
  /\ window (conv w') = window (conv Sample.start).
Proof.
  intros w'.
  assert (Hmatched : matched Sample.frames Sample.iframe (FramePlugin 3))
    by (repeat split).
  split; [exact Hmatched |].
  apply (frame_window_restored Simple.methods Sample.frames 3 3 Sample.iframe
           Sample.start w' Hmatched).
  reflexivity.
Defined.

Lemma strong_wraps_children_witness :
  let el := elementNode "STRONG" [] [textNode "World"] in
  matched Sample.strongOnly el Sample.strong
  /\ buffer (conv (snd (convertElement Simple.methods Sample.strongOnly 4
                          (Some el) Sample.start)))
     = "**World**".
Proof.
  intros el.
  assert (Hmatched : matched Sample.strongOnly el Sample.strong)
    by (repeat split).
  split; [exact Hmatched |].
  rewrite (strong_wraps_children Simple.methods Sample.strongOnly 3 1 el
             Sample.start Hmatched).
  reflexivity.
Defined.

(** ** The window of an instance *)

Section Windows.

Variable service : Lifecycle.WindowService.
Variable methods : ConversionMethods.
Variable plugins : Plugins.


(** X10.  The window is asked of the service when it is first read and kept: a
    second read answers the same window and asks nothing more; an instance
    that holds a window asks nothing at all. *)
Theorem window_read_once (europa : Lifecycle.Instance) :
  let first := Lifecycle.window service europa in
  Lifecycle.window service (snd first) = first
  /\ Lifecycle._window (snd first) = Some (fst first)
  /\ (forall win,
         Lifecycle._window europa = Some win -> first = (win, europa))
  /\ (Lifecycle._window europa = None ->
      Lifecycle.calls (snd first)
      = Lifecycle.calls europa ++ [Lifecycle.GetWindow]).
Proof.
  intros first. subst first. unfold Lifecycle.window.
  destruct (Lifecycle._window europa) as [win |] eqn:E; simpl.
  - rewrite E. split; [reflexivity |].
    split; [first [reflexivity | exact E] |]. split.
    + intros win' H. inversion H; reflexivity.
    + intros H. discriminate H.
  - split; [reflexivity |]. split; [reflexivity |]. split.
    + intros win' H. discriminate H.
    + intros _. reflexivity.
Qed.

(** X11.  [destroy] closes the window the instance holds, once, and forgets it;
    on an instance without a window it does nothing, so that destroying
    twice is destroying once; the next read of the window asks the service for
    another one. *)
Theorem destroy_closes_once (europa : Lifecycle.Instance) :
  Lifecycle.destroy (Lifecycle.destroy europa) = Lifecycle.destroy europa
  /\ Lifecycle._window (Lifecycle.destroy europa) = None
  /\ (forall win,
         Lifecycle._window europa = Some win ->
         Lifecycle.calls (Lifecycle.destroy europa)
         = Lifecycle.calls europa ++ [Lifecycle.CloseWindow win])
  /\ (Lifecycle._window europa = None -> Lifecycle.destroy europa = europa)
  /\ Lifecycle.calls
       (snd (Lifecycle.window service (Lifecycle.destroy europa)))
     = Lifecycle.calls (Lifecycle.destroy europa) ++ [Lifecycle.GetWindow].
Proof.
  unfold Lifecycle.destroy, Lifecycle.window.
  destruct (Lifecycle._window europa) as [win |] eqn:E; simpl.
  - split; [reflexivity |]. split; [reflexivity |]. split.
    + intros win' H. inversion H; reflexivity.
    + split; [intros H; discriminate H | reflexivity].
  - rewrite E. simpl. split; [reflexivity |].
    split; [first [reflexivity | exact E] |]. split.
    + intros win' H. discriminate H.
    + split; [intros _; reflexivity | reflexivity].
Qed.


Lemma count_calls_app (f : Lifecycle.ServiceCall -> bool)
      (a b : list Lifecycle.ServiceCall) :
  length (filter f (a ++ b)) = length (filter f a) + length (filter f b).
Proof. rewrite filter_app, length_app. reflexivity. Qed.

Lemma use_keeps_balance (europa : Lifecycle.Instance) (u : Lifecycle.Use) :
  let closed e := length (filter Lifecycle.isCloseWindow (Lifecycle.calls e)) in
  let got e := length (filter Lifecycle.isGetWindow (Lifecycle.calls e)) in
  let held e := match Lifecycle._window e with Some _ => 1 | None => 0 end in
  got europa = closed europa + held europa ->
  got (Lifecycle.use service methods plugins europa u)
  = closed (Lifecycle.use service methods plugins europa u)
    + held (Lifecycle.use service methods plugins europa u).
Proof.
  intros closed got held H. subst closed got held. cbv beta in H |- *.
  assert (Hwindow :
            length (filter Lifecycle.isGetWindow
                      (Lifecycle.calls (snd (Lifecycle.window service europa))))
            = length (filter Lifecycle.isCloseWindow
                        (Lifecycle.calls (snd (Lifecycle.window service europa))))
              + match Lifecycle._window (snd (Lifecycle.window service europa))
                with Some _ => 1 | None => 0 end).
  { unfold Lifecycle.window.
    destruct (Lifecycle._window europa) as [win |] eqn:E; simpl.
    - try rewrite E. try rewrite E in H. exact H.
    - try rewrite E in H. rewrite !count_calls_app. simpl. lia. }
  destruct u as [| | | fuel html]; simpl.
  - exact Hwindow.
  - unfold Lifecycle.document.
    destruct (Lifecycle.window service europa) as [win europa']. exact Hwindow.
  - unfold Lifecycle.destroy.
    destruct (Lifecycle._window europa) as [win |] eqn:E; simpl.
    + try rewrite E in H. rewrite !count_calls_app. simpl. lia.
    + try rewrite E. try rewrite E in H. exact H.
  - unfold Lifecycle.convert. destruct (negb (truthy html)); [exact H |].
    destruct (Lifecycle.window service europa) as [win europa']. simpl.
    simpl in Hwindow. rewrite !count_calls_app. simpl. lia.
Qed.

(** X13.  Whatever is done with an instance, in whatever order, it never has more
    than one window open: the windows obtained are those closed, plus the one
    the instance holds if it holds one. *)
Theorem at_most_one_window_open (uses : list Lifecycle.Use) :
  let europa :=
    fold_left (Lifecycle.use service methods plugins) uses Lifecycle.create in
  Lifecycle.openWindows europa
  = match Lifecycle._window europa with Some _ => 1 | None => 0 end
  /\ length (filter Lifecycle.isCloseWindow (Lifecycle.calls europa))
     <= length (filter Lifecycle.isGetWindow (Lifecycle.calls europa)).
Proof.
  intros europa. subst europa.
  assert (H : forall start,
             length (filter Lifecycle.isGetWindow (Lifecycle.calls start))
             = length (filter Lifecycle.isCloseWindow (Lifecycle.calls start))
               + match Lifecycle._window start with Some _ => 1 | None => 0 end ->
             let e := fold_left (Lifecycle.use service methods plugins) uses
                                start in
             length (filter Lifecycle.isGetWindow (Lifecycle.calls e))
             = length (filter Lifecycle.isCloseWindow (Lifecycle.calls e))
               + match Lifecycle._window e with Some _ => 1 | None => 0 end).
  { induction uses as [| u rest IH]; intros start Hstart; simpl.
    - exact Hstart.
    - apply IH. exact (use_keeps_balance start u Hstart). }
  specialize (H Lifecycle.create eq_refl). simpl in H.
  unfold Lifecycle.openWindows. split; lia.
Qed.

End Windows.

(** ** The plugins written for a Map context *)

Lemma getProperty_setProperty_same {V : Type} (key : string) (v : V)
      (obj : JS.Object V) :
  JS.getProperty key (JS.setProperty key v obj) = Some v.
Proof.
  induction obj as [| [k x] rest IH]; simpl.
  - rewrite String.eqb_refl. reflexivity.
  - destruct (String.eqb k key) eqn:E; simpl; rewrite E; [reflexivity | exact IH].
Qed.

Lemma getProperty_setProperty_other {V : Type} (key key' : string) (v : V)
      (obj : JS.Object V) :
  key <> key' ->
  JS.getProperty key' (JS.setProperty key v obj) = JS.getProperty key' obj.
Proof.
  intros Hneq. induction obj as [| [k x] rest IH]; simpl.
  - apply String.eqb_neq in Hneq. rewrite Hneq. reflexivity.
  - destruct (String.eqb k key) eqn:E; simpl.
    + apply String.eqb_eq in E. subst k.
      apply String.eqb_neq in Hneq. rewrite Hneq. reflexivity.
    + rewrite IH. reflexivity.
Qed.

(** X14.  Whatever the conversion has become between the [before] and the [after]
    of a preformatted element, [after] sets the indentation and the
    preformatted flag back to what they were at [before], clears [atLeft]
    and [atParagraph], and only then asks for the paragraph break; values
    other plugins would keep in the context do not matter.  Without the
    values [before] stores, the fields are not restored. *)
Theorem preformatted_after_restores
        (appendParagraph : Conversion -> Conversion)
        (saved current : Conversion) (context : Context) :
  ES6.preformattedAfter appendParagraph current
                        (ES6.preformattedBefore saved context)
  = Some (appendParagraph
            (ES6.restore false false (inPreformattedBlock saved) (left saved)
                         current))
  /\ ES6.preformattedAfter appendParagraph current [] = None.
Proof.
  split; [| reflexivity].
  unfold ES6.preformattedAfter, ES6.preformattedBefore, ES6.get, ES6.set.
  rewrite getProperty_setProperty_other by discriminate.
  rewrite !getProperty_setProperty_same. reflexivity.
Qed.

(** X15.  [EmptyPlugin] sets [skipChildren] for the time of its element:
    [transform] raises the flag and touches nothing else, and [after] puts
    back the value the flag had at [before], whatever it has become since, so
    that the three hooks in a row leave the transformation as it was.
    Without the value [before] stores, the flag is not restored. *)
Theorem empty_restores_skipChildren (t current : ES6.Transformation)
        (context : Context) :
  ES6.skipChildren (ES6.emptyTransform t) = true
  /\ ES6.state (ES6.emptyTransform t) = ES6.state t
  /\ ES6.emptyAfter current (ES6.emptyBefore t context)
     = Some (ES6.mkTransformation (ES6.state current) (ES6.skipChildren t))
  /\ ES6.emptyAfter (ES6.emptyTransform t) (ES6.emptyBefore t context) = Some t
  /\ ES6.emptyAfter current [] = None.
Proof.
  unfold ES6.emptyAfter, ES6.emptyBefore, ES6.get, ES6.set.
  rewrite getProperty_setProperty_same.
  destruct t as [c skip]. repeat split.
Qed.
